(** * Video ingestion handlers of the tubely file-storage service

    A shallow embedding of [handlerUploadVideo] and of the helpers it calls
    ([getVideoAspectRatio], [processVideoForFastStart],
    [dbVideoToSignedVideo], [generatePresignedURL]), of the earlier
    [handlerUploadVideo] and of [handlerUploadThumbnail], together with the
    properties of the ingestion pipeline that the specification states and
    further properties of the handlers.

    Definitions:
    - [Locator]    [strings.Split] and the ["bucket,key"] locator;
    - [Float64]    binary64 arithmetic as the Go code uses it, on top of the
                   bit-level IEEE-754 specification of the standard library;
    - [Pipeline]   the handler, as a state-and-exit monad over the temp
                   directory, the bucket, the metadata store and the
                   response writer;
    - [Samples]    a few concrete executions;
    - [PipelineV1] the earlier upload handler, which stores the upload as it
                   came and a public URL;
    - [Thumbnail]  the thumbnail handler, which writes to the assets
                   directory, with [ThumbnailSamples].

    Properties: of the locator, of binary64 division of integers, of the
    aspect ratio, of the helpers, of the three handlers on every execution,
    and on the samples. *)

From Stdlib Require Import ZArith QArith String Ascii List Lia Bool Zpower.
From Stdlib Require Import Floats.SpecFloat.
From stdpp Require Import base option gmap strings list pretty.
Import ListNotations.

Local Open Scope string_scope.
Local Open Scope Z_scope.

(** Go's [error] values carry a message; [nil] is [None]. *)
Definition error := option string.

(** The pair [(value, err)] a Go call returns, as a sum. *)
Inductive result (A : Type) :=
| Ok (a : A)
| Err (msg : string).
Arguments Ok {A} a.
Arguments Err {A} msg.

(** ** The storage locator: [strings.Split] on a comma *)

Module Locator.

Definition comma : ascii := ","%char.

(** [strings.Split(s, ",")]: the substrings between consecutive separators;
    [Count(s, ",") + 1] fields, so one (empty) field for the empty string. *)
Fixpoint Split (s : string) : list string :=
  match s with
  | EmptyString => [EmptyString]
  | String c rest =>
      if Ascii.eqb c comma then EmptyString :: Split rest
      else match Split rest with
           | field :: fields => String c field :: fields
           | [] => [String c EmptyString]
           end
  end.

(** [strings.Count(s, ",")]. *)
Fixpoint Count (s : string) : nat :=
  match s with
  | EmptyString => O
  | String c rest => if Ascii.eqb c comma then S (Count rest) else Count rest
  end.

(** [fmt.Sprintf("%s,%s", bucket, key)], line 497. *)
Definition encode (bucket key : string) : string := bucket +:+ "," +:+ key.

End Locator.

(** ** binary64 arithmetic

    Go's [float64] is IEEE-754 binary64 with round-to-nearest-even; the
    operations below are the standard library's bit-level specification of
    it, at precision 53 and maximal exponent 1024. *)

Module Float64.

Definition prec : Z := 53.
Definition emax : Z := 1024.

Definition float64 : Type := spec_float.

(** The conversion [float64(n)] of an [int]. *)
Definition of_int (n : Z) : float64 := binary_normalize prec emax n 0 false.

(** [x / y]. *)
Definition div (x y : float64) : float64 := SFdiv prec emax x y.

(** [x <= y] and [x >= y]; both are false on a NaN. *)
Definition le (x y : float64) : bool := SFleb x y.
Definition ge (x y : float64) : bool := SFleb y x.

(** The constants of [getVideoAspectRatio], each the binary64 number nearest
    to the decimal literal: 0x3FFB333333333333, 0x3FFCCCCCCCCCCCCD,
    0x3FE199999999999A and 0x3FE28F5C28F5C28F. *)
Definition c1_7 : float64 := S754_finite false 7656119366529843 (-52).
Definition c1_8 : float64 := S754_finite false 8106479329266893 (-52).
Definition c0_55 : float64 := S754_finite false 4953959590107546 (-53).
Definition c0_58 : float64 := S754_finite false 5224175567749775 (-53).

(** The ratio of the two dimensions as the rational number it is, against
    which the result of the binary64 comparisons is stated. *)
Definition exact_ratio (width height : Z) : Q :=
  (inject_Z width / inject_Z height)%Q.

Definition in_band (lo hi r : Q) : Prop := (lo <= r /\ r <= hi)%Q.

(** What a [location] tells about the remainder [r] of a division by
    [den]: none, or less than, equal to or more than half of [den]. *)
Definition located (l : location) (r den : Z) : Prop :=
  match l with
  | loc_Exact => r = 0
  | loc_Inexact c => 0 < r /\ (2 * r ?= den) = c
  end.

End Float64.

(** ** The upload pipeline *)

Module Pipeline.

Definition bytes : Type := list Byte.byte.

(** [uuid.UUID], sixteen bytes read as a number. *)
Definition UUID : Type := N.

(** Modelled from the spec: [database.Video] (package internal/database is
    not among the sources).  A record owns a video identifier, an owner
    identity and a nullable storage locator; the handlers also set a
    nullable thumbnail URL. *)
Record Video := mkVideo {
  ID : UUID;
  UserID : UUID;
  ThumbnailURL : option string;
  VideoURL : option string
}.

Definition set_VideoURL (video : Video) (url : string) : Video :=
  mkVideo (ID video) (UserID video) (ThumbnailURL video) (Some url).

(** The status codes of net/http that the handlers and the specification
    name. *)
Definition StatusOK : Z := 200.
Definition StatusBadRequest : Z := 400.
Definition StatusUnauthorized : Z := 401.
Definition StatusForbidden : Z := 403.
Definition StatusRequestEntityTooLarge : Z := 413.
Definition StatusUnsupportedMediaType : Z := 415.
Definition StatusInternalServerError : Z := 500.

(** Modelled from the spec: [respondWithError] and [respondWithJSON]
    (json.go is not among the sources) write one response, a status code
    with either an error message or the record. *)
Inductive Payload :=
| ErrorPayload (msg : string)
| VideoPayload (video : Video).

Record Response := mkResponse { StatusCode : Z; Payload_of : Payload }.

Record apiConfig := mkConfig {
  jwtSecret : string;
  s3Bucket : string;
  s3Region : string
}.

(** One part of a parsed multipart form: the Content-Type of its header and
    its data. *)
Record FormFile := mkFormFile {
  Header_ContentType : string;
  file_data : bytes
}.

(** The request.  Its body is kept as its length in bytes, the number of
    bytes of it that [multipart.ReadForm] has to read (up to the end of the
    closing boundary of the form, which may stand before the end of the
    body; all of the body when the form has no closing boundary), and the
    form that [multipart.ReadForm] makes of these. *)
Record Request := mkRequest {
  PathValue : string -> string;
  Header : string -> string;
  BodyLength : Z;
  FormLength : Z;
  BodyForm : result (string -> option FormFile)
}.

Record Stream := mkStream { Width : Z; Height : Z }.
Record FFProbeOutput := mkFFProbeOutput { Streams : list Stream }.

(** What a child process did: the error of [cmd.Run] (a nonzero exit
    status, or none) and the file it wrote at its output path, if it wrote
    one. *)
Record CmdResult := mkCmdResult {
  Run_err : error;
  wrote : option bytes
}.

(** The libraries and services the handler calls: each field is what the
    call gives in the execution at hand. *)
Record Env := mkEnv {
  uuid_Parse : string -> result UUID;
  auth_GetBearerToken : (string -> string) -> result string;
  auth_ValidateJWT : string -> string -> result UUID;
  mime_ParseMediaType : string -> result string;
  os_CreateTemp : result string;
  io_Copy : error;
  ffprobe_Run : option bytes -> result string;
  json_Unmarshal : string -> result FFProbeOutput;
  ffmpeg_Run : option bytes -> CmdResult;
  os_Open : error;
  File_Seek : error;
  rand_Read : result bytes;
  base64_RawURLEncoding : bytes -> string;
  s3_PutObject : error;
  db_UpdateVideo : error;
  s3_PresignGetObject : string -> string -> Z -> result string
}.

Record PutObjectInput := mkPutObjectInput {
  Bucket : string;
  Key : string;
  Body : bytes;
  ContentType : string
}.

(** The steps of the handler, for the log of what an execution reached. *)
Inductive Step :=
| StepParseID | StepGetBearerToken | StepValidateJWT | StepGetVideo
| StepCheckOwner | StepParseMultipartForm | StepFormFile
| StepParseMediaType | StepCheckMediaType | StepCreateTemp | StepCopy
| StepAspectRatio | StepFastStart | StepOpen | StepSeek | StepRandRead
| StepPutObject | StepUpdateVideo | StepSign | StepRespondJSON
| StepClose | StepRemove (path : string).

Inductive Deferred :=
| DeferClose
| DeferRemove (path : string).

(** What the handler acts on: the temp directory, the bucket, the metadata
    store and the response writer [w]; and, of the running call itself, the
    stack of deferred calls and the log of steps. *)
Record State := mkState {
  tmp : gmap string bytes;
  bucket : list PutObjectInput;
  videos : gmap UUID Video;
  written : option Response;
  deferred : list Deferred;
  log : list Step
}.

Definition set_tmp (f : gmap string bytes -> gmap string bytes) (s : State) : State :=
  mkState (f (tmp s)) (bucket s) (videos s) (written s) (deferred s) (log s).
Definition set_bucket (f : list PutObjectInput -> list PutObjectInput) (s : State) : State :=
  mkState (tmp s) (f (bucket s)) (videos s) (written s) (deferred s) (log s).
Definition set_videos (f : gmap UUID Video -> gmap UUID Video) (s : State) : State :=
  mkState (tmp s) (bucket s) (f (videos s)) (written s) (deferred s) (log s).
Definition set_written (r : Response) (s : State) : State :=
  mkState (tmp s) (bucket s) (videos s) (Some r) (deferred s) (log s).
Definition set_deferred (f : list Deferred -> list Deferred) (s : State) : State :=
  mkState (tmp s) (bucket s) (videos s) (written s) (f (deferred s)) (log s).
Definition add_log (c : Step) (s : State) : State :=
  mkState (tmp s) (bucket s) (videos s) (written s) (deferred s) (log s ++ [c]).

(** A statement either falls through with a value or executes [return]. *)
Inductive flow (A : Type) :=
| Next (a : A)
| Return.
Arguments Next {A} a.
Arguments Return {A}.

Definition M (A : Type) : Type := State -> flow A * State.

Definition ret {A} (a : A) : M A := fun s => (Next a, s).
Definition bind {A B} (m : M A) (k : A -> M B) : M B :=
  fun s => match m s with
           | (Next a, s') => k a s'
           | (Return, s') => (Return, s')
           end.
Definition return_ {A} : M A := fun s => (Return, s).
Definition modify (f : State -> State) : M unit := fun s => (Next tt, f s).
Definition get {A} (f : State -> A) : M A := fun s => (Next (f s), s).

Notation "x <- m ;; k" := (bind m (fun x => k))
  (at level 100, m at next level, right associativity).
Notation "m ;;; k" := (bind m (fun _ => k))
  (at level 100, right associativity).

Definition step (c : Step) : M unit := modify (add_log c).
Definition defer (d : Deferred) : M unit :=
  modify (set_deferred (cons d)).

Definition respondWithError (code : Z) (msg : string) : M unit :=
  modify (set_written (mkResponse code (ErrorPayload msg))).
Definition respondWithJSON (code : Z) (video : Video) : M unit :=
  modify (set_written (mkResponse code (VideoPayload video))).

(** [if err != nil { respondWithError(w, code, msg, err); return }]. *)
Definition check (err : error) (code : Z) (msg : string) : M unit :=
  match err with
  | Some _ => respondWithError code msg ;;; return_
  | None => ret tt
  end.

(** The same for a call that also gives a value. *)
Definition attempt {A} (res : result A) (code : Z) (msg : string) : M A :=
  match res with
  | Ok a => ret a
  | Err _ => respondWithError code msg ;;; return_
  end.

(** *** The helpers *)

(** The comparison chain at the end of [getVideoAspectRatio]. *)
Definition classify (width height : Z) : string :=
  let ratio := Float64.div (Float64.of_int width) (Float64.of_int height) in
  if Float64.ge ratio Float64.c1_7 && Float64.le ratio Float64.c1_8 then "16:9"
  else if Float64.ge ratio Float64.c0_55 && Float64.le ratio Float64.c0_58 then "9:16"
  else "other".

(** [getVideoAspectRatio]: ffprobe reads the file at [filePath] in the temp
    directory [fs]. *)
Definition getVideoAspectRatio (E : Env) (fs : gmap string bytes)
    (filePath : string) : string * error :=
  match ffprobe_Run E (fs !! filePath) with
  | Err err => ("", Some ("failed to run ffprobe: " +:+ err))
  | Ok stdout =>
      match json_Unmarshal E stdout with
      | Err err => ("", Some ("failed to parse ffprobe output: " +:+ err))
      | Ok output =>
          match Streams output with
          | [] => ("", Some "no streams found in video")
          | first :: _ =>
              let width := Width first in
              let height := Height first in
              if (width =? 0) || (height =? 0) then
                ("", Some ("invalid dimensions: width=" +:+ pretty width
                           +:+ ", height=" +:+ pretty height))
              else (classify width height, None)
          end
      end
  end.

(** [processVideoForFastStart]: ffmpeg reads [filePath] and writes
    [filePath.processing]. *)
Definition processVideoForFastStart (E : Env) (filePath : string)
    : M (string * error) :=
  let outputPath := filePath +:+ ".processing" in
  input <- get (fun s => tmp s !! filePath) ;;
  let cmd := ffmpeg_Run E input in
  modify (set_tmp (fun fs => match wrote cmd with
                             | Some data => <[outputPath := data]> fs
                             | None => fs
                             end)) ;;;
  match Run_err cmd with
  | Some err => ret ("", Some ("failed to process video with ffmpeg: " +:+ err))
  | None => ret (outputPath, None)
  end.

Definition time_Hour : Z := 3600000000000.

Definition generatePresignedURL (E : Env) (bucket key : string)
    (expireTime : Z) : string * error :=
  match s3_PresignGetObject E bucket key expireTime with
  | Err err => ("", Some ("failed to create presigned URL: " +:+ err))
  | Ok url => (url, None)
  end.

Definition dbVideoToSignedVideo (E : Env) (video : Video) : Video * error :=
  match VideoURL video with
  | None => (video, None)
  | Some url =>
      if String.eqb url "" then (video, None)
      else
        let parts := Locator.Split url in
        if negb (Nat.eqb (length parts) 2) then
          (video, Some ("invalid video URL format, expected 'bucket,key' but got: "
                        +:+ url))
        else
          let bucket := nth 0 parts "" in
          let key := nth 1 parts "" in
          match generatePresignedURL E bucket key time_Hour with
          | (_, Some err) =>
              (video, Some ("failed to generate presigned URL: " +:+ err))
          | (presignedURL, None) => (set_VideoURL video presignedURL, None)
          end
  end.

(** *** The calls on the request, the stores and the temp directory *)

(** [r.ParseMultipartForm] on a body wrapped by [http.MaxBytesReader(_, _,
    limit)]: a read past [limit] bytes is an error, and the multipart reader
    reads no further than the closing boundary of the form.  So the length
    of the body as such decides nothing: bytes that follow the form are
    never read.  With [maxMemory] equal to [limit], as the handler has it,
    no file part is stored on disk. *)
Definition ParseMultipartForm (r : Request) (limit : Z)
    : result (string -> option FormFile) :=
  if limit <? FormLength r then Err "http: request body too large"
  else BodyForm r.

Definition FormFile_of (form : string -> option FormFile) (name : string)
    : result FormFile :=
  match form name with
  | Some f => Ok f
  | None => Err "http: no such file"
  end.

(** Modelled from the spec: [cfg.db.GetVideo] and [cfg.db.UpdateVideo]
    (package internal/database is not among the sources) are
    [GetRecord(videoID) -> (VideoRecord, error)] and
    [UpdateRecord(VideoRecord) -> error] on the metadata store. *)
Definition GetVideo (videoID : UUID) : M (result Video) :=
  get (fun s => match videos s !! videoID with
                | Some video => Ok video
                | None => Err "sql: no rows in result set"
                end).

Definition UpdateVideo (E : Env) (video : Video) : M error :=
  match db_UpdateVideo E with
  | Some err => ret (Some err)
  | None => modify (set_videos (<[ID video := video]>)) ;;; ret None
  end.

Definition PutObject (E : Env) (input : PutObjectInput) : M error :=
  match s3_PutObject E with
  | Some err => ret (Some err)
  | None => modify (set_bucket (cons input)) ;;; ret None
  end.

(** [os.CreateTemp]: a new, empty file. *)
Definition CreateTemp (E : Env) : M (result string) :=
  match os_CreateTemp E with
  | Err err => ret (Err err)
  | Ok name => modify (set_tmp (<[name := []]>)) ;;; ret (Ok name)
  end.

(** [io.Copy(tempFile, file)]. *)
Definition Copy (E : Env) (name : string) (data : bytes) : M error :=
  match io_Copy E with
  | Some err => ret (Some err)
  | None => modify (set_tmp (<[name := data]>)) ;;; ret None
  end.

(** [os.Open]: the data of the file, read when the body is sent. *)
Definition Open (E : Env) (name : string) : M (result bytes) :=
  match os_Open E with
  | Some err => ret (Err err)
  | None => get (fun s => match tmp s !! name with
                          | Some data => Ok data
                          | None => Err "no such file or directory"
                          end)
  end.

Definition run_deferred1 (s : State) (d : Deferred) : State :=
  match d with
  | DeferClose => add_log StepClose s
  | DeferRemove path => add_log (StepRemove path) (set_tmp (delete path) s)
  end.

(** The deferred calls run last-in first-out when the function returns. *)
Definition run_deferred (s : State) : State :=
  fold_left run_deferred1 (deferred s) (set_deferred (fun _ => []) s).

(** *** [handlerUploadVideo] *)

Definition prefix_of (aspectRatio : string) : string :=
  if String.eqb aspectRatio "16:9" then "landscape"
  else if String.eqb aspectRatio "9:16" then "portrait"
  else "other".

Definition handlerUploadVideo_body (cfg : apiConfig) (E : Env) (r : Request)
    : M unit :=
  (* r.Body = http.MaxBytesReader(w, r.Body, 1<<30) *)
  let limit := Z.shiftl 1 30 in
  step StepParseID ;;;
  videoID <- attempt (uuid_Parse E (PathValue r "videoID"))
               StatusBadRequest "Invalid video ID" ;;
  step StepGetBearerToken ;;;
  token <- attempt (auth_GetBearerToken E (Header r))
             StatusUnauthorized "Couldn't find JWT" ;;
  step StepValidateJWT ;;;
  userID <- attempt (auth_ValidateJWT E token (jwtSecret cfg))
              StatusUnauthorized "Couldn't validate JWT" ;;
  step StepGetVideo ;;;
  got <- GetVideo videoID ;;
  video <- attempt got StatusInternalServerError "Couldn't get video" ;;
  step StepCheckOwner ;;;
  (if negb (N.eqb (UserID video) userID) then
     respondWithError StatusUnauthorized
       "User not authorized to update this video" ;;; return_
   else ret tt) ;;;
  step StepParseMultipartForm ;;;
  form <- attempt (ParseMultipartForm r limit)
            StatusBadRequest "Couldn't parse form" ;;
  step StepFormFile ;;;
  file <- attempt (FormFile_of form "video")
            StatusBadRequest "Couldn't get video file from form" ;;
  defer DeferClose ;;;
  step StepParseMediaType ;;;
  let contentType := Header_ContentType file in
  mediaType <- attempt (mime_ParseMediaType E contentType)
                 StatusBadRequest "Invalid Content-Type header" ;;
  step StepCheckMediaType ;;;
  (if negb (String.eqb mediaType "video/mp4") then
     respondWithError StatusBadRequest
       "Invalid file type. Only MP4 videos are allowed" ;;; return_
   else ret tt) ;;;
  step StepCreateTemp ;;;
  created <- CreateTemp E ;;
  tempFile <- attempt created
                StatusInternalServerError "Couldn't create temporary file" ;;
  defer DeferClose ;;;
  defer (DeferRemove tempFile) ;;;
  step StepCopy ;;;
  err <- Copy E tempFile (file_data file) ;;
  check err StatusInternalServerError "Couldn't write to temporary file" ;;;
  step StepAspectRatio ;;;
  probed <- get (fun s => getVideoAspectRatio E (tmp s) tempFile) ;;
  let aspectRatio := fst probed in
  check (snd probed)
    StatusInternalServerError "Couldn't determine video aspect ratio" ;;;
  step StepFastStart ;;;
  processed <- processVideoForFastStart E tempFile ;;
  let processedFilePath := fst processed in
  check (snd processed)
    StatusInternalServerError "Couldn't process video for fast start" ;;;
  defer (DeferRemove processedFilePath) ;;;
  step StepOpen ;;;
  opened <- Open E processedFilePath ;;
  processedFile <- attempt opened
                     StatusInternalServerError "Couldn't open processed file" ;;
  defer DeferClose ;;;
  let prefix := prefix_of aspectRatio in
  step StepSeek ;;;
  check (File_Seek E)
    StatusInternalServerError "Couldn't reset file pointer" ;;;
  step StepRandRead ;;;
  randomBytes <- attempt (rand_Read E)
                   StatusInternalServerError "Couldn't generate random key" ;;
  let randomString := base64_RawURLEncoding E randomBytes in
  let s3Key := prefix +:+ "/" +:+ randomString +:+ ".mp4" in
  step StepPutObject ;;;
  err <- PutObject E (mkPutObjectInput (s3Bucket cfg) s3Key processedFile mediaType) ;;
  check err StatusInternalServerError "Couldn't upload to S3" ;;;
  let videoURL := Locator.encode (s3Bucket cfg) s3Key in
  let video := set_VideoURL video videoURL in
  step StepUpdateVideo ;;;
  err <- UpdateVideo E video ;;
  check err StatusInternalServerError "Couldn't update video" ;;;
  step StepSign ;;;
  let signed := dbVideoToSignedVideo E video in
  check (snd signed)
    StatusInternalServerError "Couldn't generate presigned URL" ;;;
  step StepRespondJSON ;;;
  respondWithJSON StatusOK (fst signed).

(** A call of the handler: the body, then the deferred calls. *)
Definition handlerUploadVideo (cfg : apiConfig) (E : Env) (r : Request)
    (s : State) : State :=
  run_deferred (snd (handlerUploadVideo_body cfg E r s)).

(** The state a call starts in: nothing written to [w], nothing deferred. *)
Definition entry (fs : gmap string bytes) (objects : list PutObjectInput)
    (db : gmap UUID Video) : State :=
  mkState fs objects db None [] [].

(** The order in which the source text of the handler has its steps. *)
Definition reference_order : list Step :=
  [StepParseID; StepGetBearerToken; StepValidateJWT; StepGetVideo;
   StepCheckOwner; StepParseMultipartForm; StepFormFile; StepParseMediaType;
   StepCheckMediaType; StepCreateTemp; StepCopy; StepAspectRatio;
   StepFastStart; StepOpen; StepSeek; StepRandRead; StepPutObject;
   StepUpdateVideo; StepSign; StepRespondJSON].

Definition is_cleanup (c : Step) : bool :=
  match c with
  | StepClose | StepRemove _ => true
  | _ => false
  end.

(** The steps that put request bytes on disk. *)
Definition is_staging (c : Step) : bool :=
  match c with
  | StepCreateTemp | StepCopy => true
  | _ => false
  end.

End Pipeline.

(** ** Sample executions *)

Module Samples.
Import Pipeline.

Definition cfg : apiConfig := mkConfig "secret" "tubely-bucket" "us-east-2".

Definition alice : UUID := 1%N.
Definition bob : UUID := 2%N.
Definition clip : UUID := 7%N.

Definition record : Video := mkVideo clip alice None None.
Definition db : gmap UUID Video := {[ clip := record ]}.

Definition mp4 : bytes := [Byte.x00; Byte.x01].
Definition faststart : bytes := [Byte.x01; Byte.x00].
Definition partial : bytes := [Byte.x01].

Definition form (contentType : string) (name : string) : option FormFile :=
  if String.eqb name "video" then Some (mkFormFile contentType mp4) else None.

(** A request on [clip] with the bearer token [bearer], one form file
    [video] of the declared content type, and a body of [len] bytes that
    ends with the form. *)
Definition request (bearer : string) (contentType : string) (len : Z) : Request :=
  mkRequest (fun name => if String.eqb name "videoID" then "7" else "")
            (fun name => if String.eqb name "Authorization"
                         then "Bearer " +:+ bearer else "")
            len len (Ok (form contentType)).

(** The same with a form of [len] bytes followed by [padding] more bytes. *)
Definition padded (bearer : string) (contentType : string) (len padding : Z)
    : Request :=
  mkRequest (PathValue (request bearer contentType len))
            (Header (request bearer contentType len))
            (len + padding) len (Ok (form contentType)).

Definition location : string := "/tmp/tubely-upload.mp4123".

(** The temp directory once the upload is staged. *)
Definition staged : gmap string bytes := {[ location := mp4 ]}.

(** An execution around a 1280x720 upload, in which ffmpeg does [cmd], the
    presigner answers [sign] and every other call succeeds. *)
Definition world (cmd : CmdResult) (sign : string -> string -> result string)
    : Env :=
  mkEnv (fun s => if String.eqb s "7" then Ok clip else Err "invalid UUID length")
        (fun h => if String.eqb (h "Authorization") "Bearer alice" then Ok "alice"
                  else if String.eqb (h "Authorization") "Bearer bob" then Ok "bob"
                  else Err "malformed authorization header")
        (fun token _ => if String.eqb token "alice" then Ok alice
                        else if String.eqb token "bob" then Ok bob
                        else Err "token is invalid")
        (fun s => if String.eqb s "" then Err "mime: no media type" else Ok s)
        (Ok location)
        None
        (fun input => match input with
                      | Some _ => Ok "{}"
                      | None => Err "exit status 1"
                      end)
        (fun _ => Ok (mkFFProbeOutput [mkStream 1280 720]))
        (fun _ => cmd)
        None
        None
        (Ok [Byte.xff])
        (fun _ => "_w")
        None
        None
        (fun b k _ => sign b k).

Definition presigned (b k : string) : result string :=
  Ok ("https://" +:+ b +:+ "/" +:+ k +:+ "?X-Amz-Expires=3600").

(** Every call succeeds. *)
Definition fine : Env := world (mkCmdResult None (Some faststart)) presigned.

(** As [fine], with ffprobe reporting one stream of the given dimensions. *)
Definition probing (width height : Z) : Env :=
  mkEnv (uuid_Parse fine) (auth_GetBearerToken fine) (auth_ValidateJWT fine)
        (mime_ParseMediaType fine) (os_CreateTemp fine) (io_Copy fine)
        (ffprobe_Run fine)
        (fun _ => Ok (mkFFProbeOutput [mkStream width height]))
        (ffmpeg_Run fine) (os_Open fine) (File_Seek fine) (rand_Read fine)
        (base64_RawURLEncoding fine) (s3_PutObject fine) (db_UpdateVideo fine)
        (s3_PresignGetObject fine).

(** The media type of a Content-Type header as far as the samples need it:
    what stands before the first semicolon. *)
Fixpoint media_type (s : string) : string :=
  match s with
  | EmptyString => EmptyString
  | String c s' =>
      if Ascii.eqb c ";" then EmptyString else String c (media_type s')
  end.

(** As [fine], with [mime.ParseMediaType] dropping the parameters of the
    header. *)
Definition parsing : Env :=
  mkEnv (uuid_Parse fine) (auth_GetBearerToken fine) (auth_ValidateJWT fine)
        (fun s => if String.eqb s "" then Err "mime: no media type"
                  else Ok (media_type s))
        (os_CreateTemp fine) (io_Copy fine)
        (ffprobe_Run fine) (json_Unmarshal fine)
        (ffmpeg_Run fine) (os_Open fine) (File_Seek fine) (rand_Read fine)
        (base64_RawURLEncoding fine) (s3_PutObject fine) (db_UpdateVideo fine)
        (s3_PresignGetObject fine).

(** ffmpeg exits with a nonzero status after it has begun to write. *)
Definition broken_remux : Env :=
  world (mkCmdResult (Some "exit status 1") (Some partial)) presigned.

(** The presigner fails. *)
Definition broken_presign : Env :=
  world (mkCmdResult None (Some faststart))
        (fun _ _ => Err "failed to retrieve credentials").

End Samples.

(** ** The earlier upload handler

    The first [handlerUploadVideo] of the file (lines 76-216): the staged
    upload itself is sent to the bucket, the record keeps the public URL of
    the object, and the record is answered as stored. *)

Module PipelineV1.
Import Pipeline.

(** The body [PutObject] reads from [tempFile], whose offset the handler has
    reset to the start: all the data of the staged file. *)
Definition ReadAll (name : string) : M bytes :=
  get (fun s => default [] (tmp s !! name)).

Definition handlerUploadVideo_body (cfg : apiConfig) (E : Env) (r : Request)
    : M unit :=
  let limit := Z.shiftl 1 30 in
  step StepParseID ;;;
  videoID <- attempt (uuid_Parse E (PathValue r "videoID"))
               StatusBadRequest "Invalid video ID" ;;
  step StepGetBearerToken ;;;
  token <- attempt (auth_GetBearerToken E (Header r))
             StatusUnauthorized "Couldn't find JWT" ;;
  step StepValidateJWT ;;;
  userID <- attempt (auth_ValidateJWT E token (jwtSecret cfg))
              StatusUnauthorized "Couldn't validate JWT" ;;
  step StepGetVideo ;;;
  got <- GetVideo videoID ;;
  video <- attempt got StatusInternalServerError "Couldn't get video" ;;
  step StepCheckOwner ;;;
  (if negb (N.eqb (UserID video) userID) then
     respondWithError StatusUnauthorized
       "User not authorized to update this video" ;;; return_
   else ret tt) ;;;
  step StepParseMultipartForm ;;;
  form <- attempt (ParseMultipartForm r limit)
            StatusBadRequest "Couldn't parse form" ;;
  step StepFormFile ;;;
  file <- attempt (FormFile_of form "video")
            StatusBadRequest "Couldn't get video file from form" ;;
  defer DeferClose ;;;
  step StepParseMediaType ;;;
  let contentType := Header_ContentType file in
  mediaType <- attempt (mime_ParseMediaType E contentType)
                 StatusBadRequest "Invalid Content-Type header" ;;
  step StepCheckMediaType ;;;
  (if negb (String.eqb mediaType "video/mp4") then
     respondWithError StatusBadRequest
       "Invalid file type. Only MP4 videos are allowed" ;;; return_
   else ret tt) ;;;
  step StepCreateTemp ;;;
  created <- CreateTemp E ;;
  tempFile <- attempt created
                StatusInternalServerError "Couldn't create temporary file" ;;
  defer DeferClose ;;;
  defer (DeferRemove tempFile) ;;;
  step StepCopy ;;;
  err <- Copy E tempFile (file_data file) ;;
  check err StatusInternalServerError "Couldn't write to temporary file" ;;;
  step StepAspectRatio ;;;
  probed <- get (fun s => getVideoAspectRatio E (tmp s) tempFile) ;;
  let aspectRatio := fst probed in
  check (snd probed)
    StatusInternalServerError "Couldn't determine video aspect ratio" ;;;
  let prefix := prefix_of aspectRatio in
  step StepSeek ;;;
  check (File_Seek E)
    StatusInternalServerError "Couldn't reset file pointer" ;;;
  step StepRandRead ;;;
  randomBytes <- attempt (rand_Read E)
                   StatusInternalServerError "Couldn't generate random key" ;;
  let randomString := base64_RawURLEncoding E randomBytes in
  let s3Key := prefix +:+ "/" +:+ randomString +:+ ".mp4" in
  step StepPutObject ;;;
  body <- ReadAll tempFile ;;
  err <- PutObject E (mkPutObjectInput (s3Bucket cfg) s3Key body mediaType) ;;
  check err StatusInternalServerError "Couldn't upload to S3" ;;;
  let videoURL := "https://" +:+ s3Bucket cfg +:+ ".s3." +:+ s3Region cfg
                  +:+ ".amazonaws.com/" +:+ s3Key in
  let video := set_VideoURL video videoURL in
  step StepUpdateVideo ;;;
  err <- UpdateVideo E video ;;
  check err StatusInternalServerError "Couldn't update video" ;;;
  step StepRespondJSON ;;;
  respondWithJSON StatusOK video.

Definition handlerUploadVideo (cfg : apiConfig) (E : Env) (r : Request)
    (s : State) : State :=
  run_deferred (snd (handlerUploadVideo_body cfg E r s)).

End PipelineV1.

(** ** The thumbnail handler

    [handlerUploadThumbnail] of handler_upload_thumbnail.go.  The files of
    the assets directory live in the same path-indexed map as the temp
    files; the steps of the handler are not logged, only its deferred
    closes are (its [fmt.Println] goes to the standard output and is left
    out). *)

Module Thumbnail.
Import Pipeline.

Record apiConfig := mkConfig {
  jwtSecret : string;
  assetsRoot : string;
  port : string
}.

(** The calls of the upload pipeline, and those this handler adds.
    [multipart_ReadForm maxMemory] is what [multipart.Reader.ReadForm]
    leaves on disk for the request at hand: the files of the temp directory
    in which it stores the file parts that go beyond [maxMemory] bytes, under
    names that [os.CreateTemp] chooses; none when the file parts fit in
    memory, and none when [ReadForm] fails, as it removes them then. *)
Record Env := mkEnv {
  calls : Pipeline.Env;
  multipart_ReadForm : Z -> gmap string bytes;
  filepath_Join : string -> string -> string;
  os_Create : error
}.

(** [const maxMemory = 10 << 20] *)
Definition maxMemory : Z := Z.shiftl 10 20.

Definition set_ThumbnailURL (video : Video) (url : string) : Video :=
  mkVideo (ID video) (UserID video) (Some url) (VideoURL video).

(** The [switch mediaType] of the handler. *)
Definition fileExtension_of (mediaType : string) : option string :=
  if String.eqb mediaType "image/jpeg" then Some "jpg"
  else if String.eqb mediaType "image/png" then Some "png"
  else None.

(** [r.ParseMultipartForm(maxMemory)]: the body is not wrapped in a
    [MaxBytesReader] here, so that a form of any length is read, and
    [maxMemory] bounds only what is kept in memory: the file parts beyond it
    are stored in new files of the temp directory.  The handler removes none
    of them (the server does, once the handler has returned), so that they
    are there on every later exit.  They are put down before the result is
    known: they are there when the call succeeds and when it has read the
    form and then reports the error of the query string; when [ReadForm]
    itself fails there are none. *)
Definition ParseMultipartForm (E : Env) (r : Request) (maxMemory : Z)
    : M (result (string -> option FormFile)) :=
  modify (set_tmp (fun fs => multipart_ReadForm E maxMemory ∪ fs)) ;;;
  ret (BodyForm r).

(** [os.Create]: the file is created, or truncated when it exists. *)
Definition Create (E : Env) (name : string) : M error :=
  match os_Create E with
  | Some err => ret (Some err)
  | None => modify (set_tmp (<[name := []]>)) ;;; ret None
  end.

Definition handlerUploadThumbnail_body (cfg : apiConfig) (E : Env)
    (r : Request) : M unit :=
  videoID <- attempt (uuid_Parse (calls E) (PathValue r "videoID"))
               StatusBadRequest "Invalid ID" ;;
  token <- attempt (auth_GetBearerToken (calls E) (Header r))
             StatusUnauthorized "Couldn't find JWT" ;;
  userID <- attempt (auth_ValidateJWT (calls E) token (jwtSecret cfg))
              StatusUnauthorized "Couldn't validate JWT" ;;
  parsed <- ParseMultipartForm E r maxMemory ;;
  form <- attempt parsed StatusBadRequest "Couldn't parse form" ;;
  file <- attempt (FormFile_of form "thumbnail")
            StatusBadRequest "Couldn't get file from form" ;;
  defer DeferClose ;;;
  let contentType := Header_ContentType file in
  mediaType <- attempt (mime_ParseMediaType (calls E) contentType)
                 StatusBadRequest "Invalid Content-Type header" ;;
  fileExtension <-
    match fileExtension_of mediaType with
    | Some ext => ret ext
    | None =>
        respondWithError StatusBadRequest
          "Invalid file type. Only JPEG and PNG images are allowed" ;;; return_
    end ;;
  got <- GetVideo videoID ;;
  video <- attempt got StatusInternalServerError "Couldn't get video" ;;
  (if negb (N.eqb (UserID video) userID) then
     respondWithError StatusUnauthorized
       "User not authorized to update this video" ;;; return_
   else ret tt) ;;;
  randomBytes <- attempt (rand_Read (calls E))
                   StatusInternalServerError "Couldn't generate random filename" ;;
  let randomString := base64_RawURLEncoding (calls E) randomBytes in
  let filename := randomString +:+ "." +:+ fileExtension in
  let filePath := filepath_Join E (assetsRoot cfg) filename in
  err <- Create E filePath ;;
  check err StatusInternalServerError "Couldn't create file" ;;;
  defer DeferClose ;;;
  err <- Copy (calls E) filePath (file_data file) ;;
  check err StatusInternalServerError "Couldn't write file" ;;;
  let thumbnailURL := "http://localhost:" +:+ port cfg +:+ "/assets/"
                      +:+ filename in
  let video := set_ThumbnailURL video thumbnailURL in
  err <- UpdateVideo (calls E) video ;;
  check err StatusInternalServerError "Couldn't update video" ;;;
  respondWithJSON StatusOK video.

Definition handlerUploadThumbnail (cfg : apiConfig) (E : Env) (r : Request)
    (s : State) : State :=
  run_deferred (snd (handlerUploadThumbnail_body cfg E r s)).

End Thumbnail.

(** ** Sample thumbnail uploads *)

Module ThumbnailSamples.
Import Pipeline.

Definition cfg : Thumbnail.apiConfig :=
  Thumbnail.mkConfig "secret" "assets" "8091".

Definition png : bytes := [Byte.x89; Byte.x50].

Definition form (contentType : string) (name : string) : option FormFile :=
  if String.eqb name "thumbnail" then Some (mkFormFile contentType png)
  else None.

(** A request on [Samples.clip] with the bearer token [bearer] and one form
    file [thumbnail] of the declared content type. *)
Definition request (bearer : string) (contentType : string) : Request :=
  mkRequest (fun name => if String.eqb name "videoID" then "7" else "")
            (fun name => if String.eqb name "Authorization"
                         then "Bearer " +:+ bearer else "")
            100 100 (Ok (form contentType)).

(** The temp file of an upload that did not fit in memory. *)
Definition spilled : gmap string bytes := {[ "/tmp/multipart-4217" := png ]}.

(** Every call succeeds; the form leaves the files [onDisk] in the temp
    directory and the update of the record has the given error. *)
Definition world (onDisk : gmap string bytes) (update : error)
    : Thumbnail.Env :=
  Thumbnail.mkEnv
    (mkEnv (uuid_Parse Samples.fine) (auth_GetBearerToken Samples.fine)
           (auth_ValidateJWT Samples.fine) (mime_ParseMediaType Samples.fine)
           (os_CreateTemp Samples.fine) (io_Copy Samples.fine)
           (ffprobe_Run Samples.fine) (json_Unmarshal Samples.fine)
           (ffmpeg_Run Samples.fine) (os_Open Samples.fine)
           (File_Seek Samples.fine) (rand_Read Samples.fine)
           (base64_RawURLEncoding Samples.fine) (s3_PutObject Samples.fine)
           update (s3_PresignGetObject Samples.fine))
    (fun _ => onDisk)
    (fun dir name => dir +:+ "/" +:+ name)
    None.

Definition fine : Thumbnail.Env := world ∅ None.

(** As [fine], for an upload that did not fit in memory. *)
Definition large : Thumbnail.Env := world spilled None.

End ThumbnailSamples.

(** * Properties *)

(** ** The locator *)

Section LocatorFacts.
Import Locator Pipeline.

Lemma Split_length s : length (Split s) = S (Count s).
Proof.
  induction s as [|c rest IH]; simpl; [reflexivity|].
  destruct (Ascii.eqb c comma); simpl; [now rewrite IH|].
  destruct (Split rest) as [|f fs] eqn:E; simpl in *; [discriminate|exact IH].
Qed.

Lemma Split_no_comma s : Count s = O -> Split s = [s].
Proof.
  induction s as [|c rest IH]; simpl; [reflexivity|].
  destruct (Ascii.eqb c comma); [discriminate|].
  intros H. now rewrite (IH H).
Qed.

Lemma Split_append b k :
  Count b = O -> Split (b +:+ String comma k) = b :: Split k.
Proof.
  induction b as [|c rest IH]; simpl.
  - intros _. reflexivity.
  - destruct (Ascii.eqb c comma); [discriminate|].
    intros H. now rewrite (IH H).
Qed.

Lemma Split_encode b k :
  Count b = O -> Count k = O -> Split (encode b k) = [b; k].
Proof.
  intros Hb Hk. unfold encode.
  change ("," +:+ k) with (String comma k).
  now rewrite (Split_append b k Hb), (Split_no_comma k Hk).
Qed.

Lemma Count_encode b k : Count (encode b k) = S (Count b + Count k).
Proof.
  unfold encode. change ("," +:+ k) with (String comma k).
  induction b as [|c rest IH]; simpl; [reflexivity|].
  destruct (Ascii.eqb c comma); simpl; now rewrite IH.
Qed.

Lemma encode_nonempty b k : String.eqb (encode b k) "" = false.
Proof. unfold encode. destruct b; reflexivity. Qed.

Variable E : Env.
Variable video : Video.

(** C9.  A record whose [VideoURL] is nil or the empty string comes back
    from [dbVideoToSignedVideo] unchanged and with a nil error. *)
Theorem absent_locator_tolerated :
  VideoURL video = None \/ VideoURL video = Some "" ->
  dbVideoToSignedVideo E video = (video, None).
Proof.
  unfold dbVideoToSignedVideo. intros [H|H]; rewrite H; reflexivity.
Qed.

(** C2, as the code has it.  A locator encoded as ["bucket,key"] from a
    bucket and a key without commas splits into exactly that pair, which is
    the pair handed to the presigner; and a persisted locator that is not
    empty and does not hold exactly one comma is answered with the format
    error, the record unchanged.  (The empty locator is let through with a
    nil error.) *)
Theorem locator_roundtrip_and_format (b k url : string) :
  (Count b = O -> Count k = O ->
   Split (encode b k) = [b; k]
   /\ dbVideoToSignedVideo E (set_VideoURL video (encode b k))
      = match generatePresignedURL E b k time_Hour with
        | (_, Some err) =>
            (set_VideoURL video (encode b k),
             Some ("failed to generate presigned URL: " +:+ err))
        | (presignedURL, None) => (set_VideoURL video presignedURL, None)
        end)
  /\ (url <> "" -> Count url <> 1%nat ->
      dbVideoToSignedVideo E (set_VideoURL video url)
      = (set_VideoURL video url,
         Some ("invalid video URL format, expected 'bucket,key' but got: "
               +:+ url))).
Proof.
  split.
  - intros Hb Hk. pose proof (Split_encode b k Hb Hk) as HS.
    split; [exact HS|].
    unfold dbVideoToSignedVideo. cbn [VideoURL set_VideoURL].
    rewrite encode_nonempty, HS. cbn [length Nat.eqb negb nth].
    destruct (generatePresignedURL E b k time_Hour) as [u [err|]]; reflexivity.
  - intros Hne Hc. unfold dbVideoToSignedVideo. cbn [VideoURL set_VideoURL].
    apply String.eqb_neq in Hne. rewrite Hne, Split_length.
    destruct (Nat.eqb (S (Count url)) 2) eqn:Hn; [|reflexivity].
    apply Nat.eqb_eq in Hn. congruence.
Qed.

End LocatorFacts.

Lemma absent_locator_tolerated_witness :
  Pipeline.dbVideoToSignedVideo Samples.fine Samples.record
  = (Samples.record, None).
Proof.
  apply (absent_locator_tolerated Samples.fine Samples.record).
  left. reflexivity.
Defined.

Lemma locator_roundtrip_and_format_witness :
  Locator.Split (Locator.encode "tubely-bucket" "landscape/_w.mp4")
  = ["tubely-bucket"; "landscape/_w.mp4"]
  /\ snd (Pipeline.dbVideoToSignedVideo Samples.fine
            (Pipeline.set_VideoURL Samples.record "a,b,c"))
     = Some "invalid video URL format, expected 'bucket,key' but got: a,b,c".
Proof.
  pose proof (locator_roundtrip_and_format Samples.fine Samples.record
                "tubely-bucket" "landscape/_w.mp4" "a,b,c") as [H1 H2].
  split.
  - apply H1; reflexivity.
  - rewrite H2; [reflexivity | discriminate | discriminate].
Defined.

(** C2 as stated fails on the empty locator: it holds no comma at all, and
    [dbVideoToSignedVideo] answers it with a nil error. *)
Lemma empty_locator_no_format_error :
  Locator.Count "" <> 1%nat
  /\ Pipeline.dbVideoToSignedVideo Samples.fine
       (Pipeline.set_VideoURL Samples.record "")
     = (Pipeline.set_VideoURL Samples.record "", None).
Proof. split; [discriminate | reflexivity]. Qed.

(** ** binary64 division of integers *)

Section Float64Facts.
Import Float64.

Abbreviation fin := S754_finite.

(** *** Digits *)

Lemma digits2_bounds (p : positive) :
  2 ^ (Zpos (digits2_pos p) - 1) <= Zpos p < 2 ^ Zpos (digits2_pos p).
Proof.
  induction p as [p IH|p IH|]; cbn [digits2_pos].
  - rewrite Pos2Z.inj_succ, Z.pow_succ_r by lia.
    replace (Z.succ (Zpos (digits2_pos p)) - 1) with (Zpos (digits2_pos p)) by lia.
    replace (Zpos (digits2_pos p)) with (Z.succ (Zpos (digits2_pos p) - 1)) at 1 by lia.
    rewrite Z.pow_succ_r by lia. lia.
  - rewrite Pos2Z.inj_succ, Z.pow_succ_r by lia.
    replace (Z.succ (Zpos (digits2_pos p)) - 1) with (Zpos (digits2_pos p)) by lia.
    replace (Zpos (digits2_pos p)) with (Z.succ (Zpos (digits2_pos p) - 1)) at 1 by lia.
    rewrite Z.pow_succ_r by lia. lia.
  - cbn. lia.
Qed.

Lemma digits2_unique (p : positive) (n : Z) :
  2 ^ (n - 1) <= Zpos p < 2 ^ n -> Zpos (digits2_pos p) = n.
Proof.
  intros [Hlo Hhi]. pose proof (digits2_bounds p) as [Dlo Dhi].
  destruct (Z.lt_trichotomy (Zpos (digits2_pos p)) n) as [Hlt|[Heq|Hgt]]; [|exact Heq|].
  - assert (0 <= n - 1) by lia.
    assert (2 ^ Zpos (digits2_pos p) <= 2 ^ (n - 1))
      by (apply Z.pow_le_mono_r; lia).
    lia.
  - assert (0 <= n).
    { destruct (Z.le_gt_cases 0 n); [assumption|].
      rewrite Z.pow_neg_r in Hhi by assumption. lia. }
    assert (2 ^ n <= 2 ^ (Zpos (digits2_pos p) - 1))
      by (apply Z.pow_le_mono_r; lia).
    lia.
Qed.

Lemma iter_xO (p d : positive) : Zpos (Pos.iter xO p d) = Zpos p * 2 ^ Zpos d.
Proof.
  change (Pos.iter xO p d) with (shift_pos d p).
  rewrite shift_pos_correct, Z.pow_pos_fold. lia.
Qed.


(** *** Rounding a mantissa of 53 or 54 digits *)

Lemma new_location_located (den r : Z) :
  0 <= r < den -> located (new_location den r) r den.
Proof.
  intros Hr. unfold new_location, new_location_even, new_location_odd.
  destruct (Z.even den) eqn:Hev; destruct (Z.eqb_spec r 0) as [->|Hne];
    cbn [located]; try reflexivity; (split; [lia|]).
  - reflexivity.
  - assert (Z.odd den = true) as Hodd by (rewrite <- Z.negb_even, Hev; reflexivity).
    apply Z.odd_spec in Hodd. destruct Hodd as [k Hk].
    destruct (Z.compare_spec (2 * r + 1) den);
      [apply Z.compare_lt_iff|apply Z.compare_lt_iff|apply Z.compare_gt_iff];
      lia.
Qed.

Lemma shr_fexp_keep (m : positive) (e : Z) (l : location) :
  Zpos (digits2_pos m) = 53 -> -1074 <= e ->
  shr_fexp prec emax (Zpos m) e l = (shr_record_of_loc (Zpos m) l, e).
Proof.
  intros Hd He. unfold shr_fexp, Zdigits2, fexp, SpecFloat.emin, prec, emax.
  rewrite Hd.
  replace (Z.max (53 + e - 53) (3 - 1024 - 53)) with e by lia.
  rewrite Z.sub_diag. reflexivity.
Qed.

Lemma shr_fexp_one (m : positive) (e : Z) (l : location) :
  Zpos (digits2_pos m) = 54 -> -1075 <= e ->
  shr_fexp prec emax (Zpos m) e l
  = (shr_1 (shr_record_of_loc (Zpos m) l), e + 1).
Proof.
  intros Hd He. unfold shr_fexp, Zdigits2, fexp, SpecFloat.emin, prec, emax.
  rewrite Hd.
  replace (Z.max (54 + e - 53) (3 - 1024 - 53) - e) with 1 by lia.
  reflexivity.
Qed.

Lemma loc_of_record (m : Z) (l : location) :
  loc_of_shr_record (shr_record_of_loc m l) = l.
Proof. destruct l as [|[]]; reflexivity. Qed.

Lemma shr_m_of_loc (m : Z) (l : location) :
  shr_m (shr_record_of_loc m l) = m.
Proof. destruct l as [|[]]; reflexivity. Qed.

Lemma record_of_loc (mrs : shr_record) :
  shr_record_of_loc (shr_m mrs) (loc_of_shr_record mrs) = mrs.
Proof. destruct mrs as [m [] []]; reflexivity. Qed.

(** The last step of [binary_round_aux]: a rounded mantissa that has reached
    [2^53] is brought back to 53 digits. *)
Lemma round_aux_tail (s : bool) (m1 : positive) (e : Z) :
  2 ^ 52 <= Zpos m1 <= 2 ^ 53 -> -1074 <= e <= 900 ->
  exists m k,
    (let '(mrs, e') := shr_fexp prec emax (Zpos m1) e loc_Exact in
     match shr_m mrs with
     | Z0 => S754_zero s
     | Zpos m => if e' <=? emax - prec then fin s m e' else S754_infinity s
     | Zneg _ => S754_nan
     end) = fin s m (e + k)
    /\ 2 ^ 52 <= Zpos m < 2 ^ 53
    /\ 0 <= k <= 1
    /\ Zpos m * 2 ^ k = Zpos m1.
Proof.
  intros Hm He.
  destruct (Z.eq_dec (Zpos m1) (2 ^ 53)) as [Heq|Hne].
  - exists (Z.to_pos (2 ^ 52)), 1.
    assert (m1 = Z.to_pos (2 ^ 53)) as -> by (rewrite <- Heq; reflexivity).
    rewrite shr_fexp_one by (try reflexivity; lia).
    cbn [shr_record_of_loc shr_1 shr_m Z.to_pos Z.pow Z.pow_pos Pos.iter Z.mul Pos.mul].
    unfold emax, prec.
    destruct (Z.leb_spec (e + 1) (1024 - 53)); [|lia].
    repeat split; try reflexivity; lia.
  - exists m1, 0.
    rewrite shr_fexp_keep by (try apply digits2_unique; lia).
    cbn [shr_record_of_loc shr_m]. unfold emax, prec.
    destruct (Z.leb_spec e (1024 - 53)); [|lia].
    rewrite Z.add_0_r. repeat split; lia.
Qed.


Lemma round_nearest_even_near (m : positive) (l : location) (r den : Z) :
  0 <= r < den -> located l r den ->
  exists m1 : positive,
    round_nearest_even (Zpos m) l = Zpos m1
    /\ Zpos m <= Zpos m1 <= Zpos m + 1
    /\ 2 * Z.abs (Zpos m1 * den - (Zpos m * den + r)) <= den.
Proof.
  intros Hr Hl. destruct l as [|c]; cbn [located] in Hl.
  - exists m. subst r. cbn [round_nearest_even]. repeat split; lia.
  - destruct Hl as [Hpos Hc].
    pose proof (Z.compare_spec (2 * r) den) as Hs. rewrite Hc in Hs.
    destruct c; inversion Hs; unfold round_nearest_even.
    + destruct (Z.even (Zpos m)); [exists m | exists (m + 1)%positive];
        rewrite ?Pos2Z.inj_add; repeat split; lia.
    + exists m. repeat split; lia.
    + exists (m + 1)%positive.
      rewrite Pos2Z.inj_add. repeat split; lia.
Qed.

(** [binary_round_aux] on a mantissa of 53 digits. *)
Lemma round_aux_53 (s : bool) (m : positive) (e : Z) (l : location) (r den : Z) :
  2 ^ 52 <= Zpos m < 2 ^ 53 -> -1074 <= e <= 900 ->
  0 <= r < den -> located l r den ->
  exists m' k,
    binary_round_aux prec emax s (Zpos m) e l = fin s m' (e + k)
    /\ 2 ^ 52 <= Zpos m' < 2 ^ 53
    /\ 0 <= k <= 1
    /\ 2 * Z.abs (Zpos m' * 2 ^ k * den - (Zpos m * den + r)) <= 2 ^ k * den.
Proof.
  intros Hm He Hr Hl. unfold binary_round_aux.
  rewrite shr_fexp_keep by (try apply digits2_unique; lia).
  rewrite loc_of_record, shr_m_of_loc.
  destruct (round_nearest_even_near m l r den Hr Hl) as (m1 & -> & Hm1 & Hnear).
  destruct (round_aux_tail s m1 e ltac:(lia) He) as (m' & k & -> & Hm' & Hk & Hval).
  exists m', k. split; [reflexivity|]. split; [assumption|]. split; [assumption|].
  rewrite Hval. assert (1 <= 2 ^ k) by (apply Z.pow_le_mono_r with (b := 0); lia).
  nia.
Qed.

(** A mantissa of 54 digits is first shifted by one bit. *)
Lemma round_aux_54 (s : bool) (m : positive) (e : Z) (l : location) (r den : Z) :
  2 ^ 53 <= Zpos m < 2 ^ 54 -> -1075 <= e <= 899 ->
  0 <= r < den -> located l r den ->
  exists m' k,
    binary_round_aux prec emax s (Zpos m) e l = fin s m' (e + k)
    /\ 2 ^ 52 <= Zpos m' < 2 ^ 53
    /\ 1 <= k <= 2
    /\ 2 * Z.abs (Zpos m' * 2 ^ k * den - (Zpos m * den + r)) <= 2 ^ k * den.
Proof.
  intros Hm He Hr Hl.
  assert (exists (p : positive) (b sticky : bool),
             shr_1 (shr_record_of_loc (Zpos m) l)
             = Build_shr_record (Zpos p) b sticky
             /\ Zpos m = 2 * Zpos p + Z.b2z b
             /\ (sticky = false <-> r = 0)) as (p & b & sticky & Hshr & Hp & Hst).
  { destruct m as [p|p|]; [exists p, true|exists p, false|lia];
      (destruct l as [|[]]; cbn [located] in Hl;
       [exists false|exists true|exists true|exists true];
       cbn [shr_record_of_loc shr_1 orb Z.b2z];
       (split; [reflexivity|split; [lia|split; [intros; try discriminate; lia
                                              |intros; try reflexivity; lia]]])). }
  assert (0 <= Z.b2z b <= 1) as Hb by (destruct b; cbn; lia).
  assert (binary_round_aux prec emax s (Zpos m) e l
          = binary_round_aux prec emax s (Zpos p) (e + 1)
              (loc_of_shr_record (Build_shr_record (Zpos p) b sticky))) as ->.
  { unfold binary_round_aux.
    rewrite shr_fexp_one by (try apply digits2_unique; lia).
    rewrite (shr_fexp_keep p) by (try apply digits2_unique; lia).
    rewrite Hshr, loc_of_record, shr_m_of_loc. reflexivity. }
  destruct (round_aux_53 s p (e + 1)
              (loc_of_shr_record (Build_shr_record (Zpos p) b sticky))
              (Z.b2z b * den + r) (2 * den))
    as (m' & k & Hres & Hm' & Hk & Hnear); try lia.
  { destruct b; cbn [Z.b2z]; lia. }
  { destruct b, sticky; cbn [loc_of_shr_record located Z.b2z];
      try (assert (r = 0) by (apply Hst; reflexivity));
      try (assert (r <> 0) by (intros H0; apply Hst in H0; discriminate));
      try lia; (split; [lia|]);
      [apply Z.compare_gt_iff|apply Z.compare_eq_iff|apply Z.compare_lt_iff]; lia. }
  exists m', (k + 1). rewrite Hres. split; [f_equal; lia|].
  split; [assumption|]. split; [lia|].
  rewrite Z.pow_add_r by lia. change (2 ^ 1) with 2.
  replace (Zpos m * den + r) with (Zpos p * (2 * den) + (Z.b2z b * den + r))
    by (rewrite Hp; ring).
  replace (Zpos m' * (2 ^ k * 2) * den) with (Zpos m' * 2 ^ k * (2 * den)) by ring.
  lia.
Qed.


Lemma round_aux_exact (s : bool) (m : positive) (e : Z) :
  2 ^ 52 <= Zpos m < 2 ^ 53 -> -1074 <= e <= 900 ->
  binary_round_aux prec emax s (Zpos m) e loc_Exact = fin s m e.
Proof.
  intros Hm He. unfold binary_round_aux.
  rewrite shr_fexp_keep by (try apply digits2_unique; lia).
  cbn [shr_record_of_loc shr_m loc_of_shr_record round_nearest_even].
  rewrite shr_fexp_keep by (try apply digits2_unique; lia).
  cbn [shr_record_of_loc shr_m]. unfold emax, prec.
  destruct (Z.leb_spec e (1024 - 53)); [reflexivity|lia].
Qed.

(** *** The conversion of an [int] below [2^53] is exact *)

Lemma binary_round_int (s : bool) (p : positive) :
  Zpos p < 2 ^ 53 ->
  exists (a : Z) (m : positive),
    binary_round prec emax s p 0 = fin s m (- a)
    /\ a = 53 - Zpos (digits2_pos p)
    /\ 0 <= a <= 52
    /\ Zpos m = Zpos p * 2 ^ a
    /\ 2 ^ 52 <= Zpos m < 2 ^ 53.
Proof.
  intros Hp. pose proof (digits2_bounds p) as [Dlo Dhi].
  set (d := Zpos (digits2_pos p)) in *.
  assert (1 <= d) as Hd1 by (subst d; lia).
  assert (d <= 53) as Hd.
  { destruct (Z.le_gt_cases d 53) as [|Hgt]; [assumption|].
    assert (2 ^ 53 <= 2 ^ (d - 1)) by (apply Z.pow_le_mono_r; lia). lia. }
  unfold binary_round, shl_align, fexp, SpecFloat.emin, prec, emax.
  fold d. replace (Z.max (d + 0 - 53) (3 - 1024 - 53) - 0) with (d - 53) by lia.
  replace (Z.max (d + 0 - 53) (3 - 1024 - 53)) with (d - 53) by lia.
  destruct (d - 53) as [|D|D] eqn:HD; [|lia|].
  - exists 0, p. assert (d = 53) as Hd53 by lia. rewrite Hd53 in *.
    pose proof (round_aux_exact s p 0 ltac:(lia) ltac:(lia)) as R.
    unfold prec, emax in R. rewrite R.
    repeat split; lia.
  - exists (Zpos D), (Pos.iter xO p D).
    assert (Zpos D = 53 - d) as HDd by lia.
    assert (Zpos (Pos.iter xO p D) = Zpos p * 2 ^ Zpos D) as Hval by apply iter_xO.
    assert (2 ^ 52 <= Zpos p * 2 ^ Zpos D < 2 ^ 53) as Hrange.
    { rewrite HDd.
      replace (2 ^ 52) with (2 ^ (d - 1) * 2 ^ (53 - d))
        by (rewrite <- Z.pow_add_r by lia; f_equal; lia).
      replace (2 ^ 53) with (2 ^ d * 2 ^ (53 - d))
        by (rewrite <- Z.pow_add_r by lia; f_equal; lia).
      assert (0 < 2 ^ (53 - d)) by (apply Z.pow_pos_nonneg; lia).
      split; [apply Z.mul_le_mono_nonneg_r|apply Z.mul_lt_mono_pos_r]; lia. }
    pose proof (round_aux_exact s (Pos.iter xO p D) (Z.neg D)
                  ltac:(lia) ltac:(lia)) as R.
    unfold prec, emax in R. rewrite R.
    repeat split; try lia.
Qed.

(** *** Division of two normal numbers *)

Lemma div_core_spec (mx my : positive) (ex ey : Z) :
  2 ^ 52 <= Zpos mx < 2 ^ 53 -> 2 ^ 52 <= Zpos my < 2 ^ 53 ->
  -1000 <= ex - ey <= 1000 ->
  SFdiv_core_binary prec emax (Zpos mx) ex (Zpos my) ey
  = let '(q, r) := Z.div_eucl (Zpos mx * 2 ^ 53) (Zpos my) in
    (q, ex - ey - 53, new_location (Zpos my) r).
Proof.
  intros Hx Hy He.
  unfold SFdiv_core_binary, Zdigits2, fexp, SpecFloat.emin, prec, emax.
  rewrite (digits2_unique mx 53), (digits2_unique my 53) by lia.
  replace (Z.min (Z.max (53 + ex - (53 + ey) - 53) (3 - 1024 - 53)) (ex - ey))
    with (ex - ey - 53) by lia.
  replace (ex - ey - (ex - ey - 53)) with 53 by lia.
  rewrite Z.shiftl_mul_pow2 by lia. reflexivity.
Qed.

Lemma div_normal (sx sy : bool) (mx my : positive) (ex ey : Z) :
  2 ^ 52 <= Zpos mx < 2 ^ 53 -> 2 ^ 52 <= Zpos my < 2 ^ 53 ->
  -60 <= ex <= 0 -> -60 <= ey <= 0 ->
  exists m k,
    div (fin sx mx ex) (fin sy my ey) = fin (xorb sx sy) m (ex - ey - 53 + k)
    /\ 2 ^ 52 <= Zpos m < 2 ^ 53
    /\ 0 <= k <= 2
    /\ 2 * Z.abs (Zpos m * 2 ^ k * Zpos my - Zpos mx * 2 ^ 53)
       <= 2 ^ k * Zpos my.
Proof.
  intros Hx Hy Hex Hey. unfold div, SFdiv.
  rewrite div_core_spec by lia.
  pose proof (Z_div_mod (Zpos mx * 2 ^ 53) (Zpos my) ltac:(lia)) as Hdiv.
  destruct (Z.div_eucl (Zpos mx * 2 ^ 53) (Zpos my)) as [q r].
  destruct Hdiv as [Hq Hr].
  assert (2 ^ 52 <= q < 2 ^ 54) as Hqr by nia.
  destruct q as [|q|q]; try lia.
  replace (Zpos mx * 2 ^ 53) with (Zpos q * Zpos my + r) by lia.
  pose proof (new_location_located (Zpos my) r Hr) as Hloc.
  destruct (Z.lt_ge_cases (Zpos q) (2 ^ 53)) as [Hlt|Hge].
  - destruct (round_aux_53 (xorb sx sy) q (ex - ey - 53)
                (new_location (Zpos my) r) r (Zpos my))
      as (m & k & Hres & Hm & Hk & Hnear); try lia; try assumption.
    exists m, k. repeat split; try assumption; lia.
  - destruct (round_aux_54 (xorb sx sy) q (ex - ey - 53)
                (new_location (Zpos my) r) r (Zpos my))
      as (m & k & Hres & Hm & Hk & Hnear); try lia; try assumption.
    exists m, k. repeat split; try assumption; lia.
Qed.


(** *** Division of two integers below [2^49] *)

Lemma digits2_le (p : positive) (n : Z) :
  0 <= n -> Zpos p < 2 ^ n -> Zpos (digits2_pos p) <= n.
Proof.
  intros Hn Hp. pose proof (digits2_bounds p) as [Dlo _].
  destruct (Z.le_gt_cases (Zpos (digits2_pos p)) n) as [|Hgt]; [assumption|].
  assert (2 ^ n <= 2 ^ (Zpos (digits2_pos p) - 1))
    by (apply Z.pow_le_mono_r; lia).
  lia.
Qed.

Lemma div_pos (sw sh : bool) (w h : positive) :
  Zpos w < 2 ^ 49 -> Zpos h < 2 ^ 49 ->
  exists (m : positive) (N : Z),
    div (binary_round prec emax sw w 0) (binary_round prec emax sh h 0)
    = fin (xorb sw sh) m (- N)
    /\ 2 ^ 52 <= Zpos m < 2 ^ 53
    /\ 0 <= N
    /\ 2 * Z.abs (Zpos m * Zpos h - Zpos w * 2 ^ N) <= Zpos h.
Proof.
  intros Hw Hh.
  destruct (binary_round_int sw w ltac:(lia)) as (a & mw & -> & Ha & Ha' & Hmw & Hrw).
  destruct (binary_round_int sh h ltac:(lia)) as (b & mh & -> & Hb & Hb' & Hmh & Hrh).
  pose proof (digits2_le w 49 ltac:(lia) Hw) as Hdw.
  destruct (div_normal sw sh mw mh (- a) (- b) Hrw Hrh ltac:(lia) ltac:(lia))
    as (m & k & -> & Hm & Hk & Hnear).
  exists m, (a - b + 53 - k).
  split; [f_equal; lia|]. split; [assumption|]. split; [lia|].
  set (N := a - b + 53 - k).
  assert (0 < 2 ^ b * 2 ^ k) as HP
    by (apply Z.mul_pos_pos; apply Z.pow_pos_nonneg; lia).
  assert (2 ^ a * 2 ^ 53 = 2 ^ N * (2 ^ b * 2 ^ k)) as Hpow.
  { rewrite <- !Z.pow_add_r by (subst N; lia). f_equal. subst N. lia. }
  rewrite Hmw, Hmh in Hnear.
  replace (Zpos m * 2 ^ k * (Zpos h * 2 ^ b) - Zpos w * 2 ^ a * 2 ^ 53)
    with ((Zpos m * Zpos h - Zpos w * 2 ^ N) * (2 ^ b * 2 ^ k)) in Hnear
    by (rewrite Z.mul_sub_distr_r, <- (Z.mul_assoc (Zpos w)), <- Hpow; ring).
  rewrite Z.abs_mul, (Z.abs_eq (2 ^ b * 2 ^ k)) in Hnear by lia.
  apply (Z.mul_le_mono_pos_r _ _ (2 ^ b * 2 ^ k)); [assumption|].
  lia.
Qed.

Lemma of_int_pos (p : positive) : of_int (Zpos p) = binary_round prec emax false p 0.
Proof. reflexivity. Qed.

Lemma of_int_neg (p : positive) : of_int (Zneg p) = binary_round prec emax true p 0.
Proof. reflexivity. Qed.

Lemma div_int (w h : Z) :
  w <> 0 -> h <> 0 -> Z.abs w < 2 ^ 49 -> Z.abs h < 2 ^ 49 ->
  exists (m : positive) (N : Z),
    div (of_int w) (of_int h) = fin (xorb (w <? 0) (h <? 0)) m (- N)
    /\ 2 ^ 52 <= Zpos m < 2 ^ 53
    /\ 0 <= N
    /\ 2 * Z.abs (Zpos m * Z.abs h - Z.abs w * 2 ^ N) <= Z.abs h.
Proof.
  intros Hw0 Hh0 Hw Hh.
  destruct w as [|w|w]; [contradiction| |]; destruct h as [|h|h]; try contradiction;
    rewrite ?of_int_pos, ?of_int_neg; cbn [Z.abs Z.ltb Z.compare] in *;
    apply div_pos; assumption.
Qed.

(** *** Comparison with the four constants *)

Lemma SFleb_pos (m1 m2 : positive) (e1 e2 : Z) :
  SFleb (fin false m1 e1) (fin false m2 e2) = true
  <-> e1 < e2 \/ (e1 = e2 /\ Zpos m1 <= Zpos m2).
Proof.
  unfold SFleb, SFcompare.
  destruct (Z.compare_spec e1 e2) as [He|He|He].
  - change (Pos.compare_cont Eq m1 m2) with (Pos.compare m1 m2).
    destruct (Pos.compare_spec m1 m2) as [Hm|Hm|Hm]; split;
      try discriminate; try (intros _; right; split; [assumption|lia]); lia.
  - split; [intros _; left; assumption|reflexivity].
  - split; [discriminate|lia].
Qed.

Lemma SFleb_neg_r (m1 m2 : positive) (e1 e2 : Z) :
  SFleb (fin false m1 e1) (fin true m2 e2) = false.
Proof. reflexivity. Qed.


Section Thresholds.

Variables m H W N : Z.
Hypothesis Hm : 2 ^ 52 <= m < 2 ^ 53.
Hypothesis HH : 0 < H < 2 ^ 49.
Hypothesis HW : 0 < W.
Hypothesis HN : 0 <= N.
Hypothesis Hnear : 2 * Z.abs (m * H - W * 2 ^ N) <= H.

Lemma mantissa_times : 2 ^ 52 * H <= m * H <= (2 ^ 53 - 1) * H.
Proof. split; apply Z.mul_le_mono_nonneg_r; lia. Qed.

Lemma scaled_below (c : Z) : 0 <= c -> N < c -> W * 2 ^ N <= W * 2 ^ (c - 1).
Proof.
  intros Hc Hlt. apply Z.mul_le_mono_nonneg_l; [lia|].
  apply Z.pow_le_mono_r; lia.
Qed.

Lemma scaled_above (c : Z) : 0 <= c -> c < N -> W * 2 ^ (c + 1) <= W * 2 ^ N.
Proof.
  intros Hc Hlt. apply Z.mul_le_mono_nonneg_l; [lia|].
  apply Z.pow_le_mono_r; lia.
Qed.

(** The four proofs have one shape: away from the exponent of the constant
    the ratio is below 1 (or 1/2) or at least nearly 2 (or 1); at that
    exponent the mantissas are compared, and the half unit of rounding is
    less than the distance of any quotient of such integers from the
    decimal. *)
Ltac threshold c M :=
  pose proof mantissa_times as HX;
  destruct (Z.lt_trichotomy N c) as [Hlt|[Heq|Hgt]];
  [ pose proof (scaled_below c ltac:(lia) Hlt) as HT;
    (let v := eval vm_compute in (2 ^ (c - 1)) in
     change (2 ^ (c - 1)) with v in HT);
    split; intros; try lia; (left + right); lia
  | rewrite Heq in *; split;
    [ intros [?|[_ Hc]]; [lia|];
      first [ assert (M * H <= m * H) by (apply Z.mul_le_mono_nonneg_r; lia)
            | assert (m * H <= M * H) by (apply Z.mul_le_mono_nonneg_r; lia) ];
      lia
    | intros Hr; right; split; [reflexivity|];
      first [ (destruct (Z.le_gt_cases M m); [assumption|]);
              assert (m * H <= (M - 1) * H)
                by (apply Z.mul_le_mono_nonneg_r; lia); lia
            | (destruct (Z.le_gt_cases m M); [assumption|]);
              assert ((M + 1) * H <= m * H)
                by (apply Z.mul_le_mono_nonneg_r; lia); lia ] ]
  | pose proof (scaled_above c ltac:(lia) Hgt) as HT;
    (let v := eval vm_compute in (2 ^ (c + 1)) in
     change (2 ^ (c + 1)) with v in HT);
    split; intros; try lia; (left + right); lia ].

Lemma ge_1_7 :
  (N < 52 \/ (N = 52 /\ 7656119366529843 <= m)) <-> 17 * H <= 10 * W.
Proof. threshold 52 7656119366529843. Qed.

Lemma le_1_8 :
  (52 < N \/ (N = 52 /\ m <= 8106479329266893)) <-> 10 * W <= 18 * H.
Proof. threshold 52 8106479329266893. Qed.

Lemma ge_0_55 :
  (N < 53 \/ (N = 53 /\ 4953959590107546 <= m)) <-> 55 * H <= 100 * W.
Proof. threshold 53 4953959590107546. Qed.

Lemma le_0_58 :
  (53 < N \/ (N = 53 /\ m <= 5224175567749775)) <-> 100 * W <= 58 * H.
Proof. threshold 53 5224175567749775. Qed.

End Thresholds.


(** *** The exact ratio *)

Lemma exact_ratio_ge (n d : positive) (w h : Z) :
  h <> 0 ->
  ((Zpos n # d) <= exact_ratio w h)%Q
  <-> Zpos n * Z.abs h <= Zpos d * (w * Z.sgn h).
Proof.
  intros Hh. unfold exact_ratio, Qle, Qdiv, Qmult, Qinv, inject_Z.
  destruct h as [|h|h]; [contradiction| |]; cbn [Qnum Qden Z.abs Z.sgn];
    rewrite ?Pos.mul_1_l; lia.
Qed.

Lemma exact_ratio_le (n d : positive) (w h : Z) :
  h <> 0 ->
  (exact_ratio w h <= (Zpos n # d))%Q
  <-> Zpos d * (w * Z.sgn h) <= Zpos n * Z.abs h.
Proof.
  intros Hh. unfold exact_ratio, Qle, Qdiv, Qmult, Qinv, inject_Z.
  destruct h as [|h|h]; [contradiction| |]; cbn [Qnum Qden Z.abs Z.sgn];
    rewrite ?Pos.mul_1_l; lia.
Qed.

Lemma sign_of_ratio (w h : Z) :
  w <> 0 -> h <> 0 ->
  w * Z.sgn h = if xorb (w <? 0) (h <? 0) then - Z.abs w else Z.abs w.
Proof.
  intros Hw Hh. destruct w, h; try contradiction;
    cbn [Z.ltb Z.compare xorb Z.sgn Z.abs]; lia.
Qed.

(** The comparison chain of [getVideoAspectRatio] decides the two bands of
    the exact ratio, for dimensions below [2^49]. *)
Lemma classify_exact (w h : Z) :
  w <> 0 -> h <> 0 -> Z.abs w < 2 ^ 49 -> Z.abs h < 2 ^ 49 ->
  let r := exact_ratio w h in
  (Pipeline.classify w h = "16:9" <-> in_band (17 # 10) (18 # 10) r)
  /\ (Pipeline.classify w h = "9:16" <-> in_band (55 # 100) (58 # 100) r)
  /\ (Pipeline.classify w h = "other"
      <-> ~ in_band (17 # 10) (18 # 10) r /\ ~ in_band (55 # 100) (58 # 100) r).
Proof.
  intros Hw Hh Hwb Hhb r. subst r. unfold in_band.
  rewrite !exact_ratio_ge, !exact_ratio_le by assumption.
  rewrite (sign_of_ratio w h Hw Hh).
  destruct (div_int w h Hw Hh Hwb Hhb) as (m & N & Hdiv & Hm & HN & Hnear).
  unfold Pipeline.classify. rewrite Hdiv.
  assert (0 < Z.abs w) as HW by lia. assert (0 < Z.abs h < 2 ^ 49) as HH by lia.
  destruct (xorb (w <? 0) (h <? 0)).
  - unfold ge, le, c1_7, c0_55. rewrite !SFleb_neg_r. cbn [andb].
    repeat split; intros; try discriminate; lia.
  - pose proof (ge_1_7 (Zpos m) _ _ N Hm HH HW HN Hnear) as G17.
    pose proof (le_1_8 (Zpos m) _ _ N Hm HH HW HN Hnear) as L18.
    pose proof (ge_0_55 (Zpos m) _ _ N Hm HH HW HN Hnear) as G55.
    pose proof (le_0_58 (Zpos m) _ _ N Hm HH HW HN Hnear) as L58.
    unfold ge, le, c1_7, c1_8, c0_55, c0_58.
    pose proof (SFleb_pos 7656119366529843 m (-52) (- N)) as B1.
    pose proof (SFleb_pos m 8106479329266893 (- N) (-52)) as B2.
    pose proof (SFleb_pos 4953959590107546 m (-53) (- N)) as B3.
    pose proof (SFleb_pos m 5224175567749775 (- N) (-53)) as B4.
    destruct (SFleb (fin false 7656119366529843 (-52)) (fin false m (- N)));
      destruct (SFleb (fin false m (- N)) (fin false 8106479329266893 (-52)));
      destruct (SFleb (fin false 4953959590107546 (-53)) (fin false m (- N)));
      destruct (SFleb (fin false m (- N)) (fin false 5224175567749775 (-53)));
      cbn [andb];
      repeat match goal with
        | B : true = true <-> _ |- _ => destruct B as [B _]; specialize (B eq_refl)
        | B : false = true <-> _ |- _ =>
            destruct B as [_ B];
            assert (~ _) by (intros X; specialize (B X); discriminate B); clear B
        end;
      repeat split; intros; try discriminate; try reflexivity; try lia.
Qed.

End Float64Facts.

(** ** The aspect ratio *)

Section AspectRatioFacts.
Import Float64 Pipeline.

Lemma classify_cases (w h : Z) :
  classify w h = "16:9" \/ classify w h = "9:16" \/ classify w h = "other".
Proof.
  unfold classify.
  destruct (_ && _); [left; reflexivity|].
  destruct (_ && _); [right; left; reflexivity|right; right; reflexivity].
Qed.

Lemma prefix_of_classify (w h : Z) :
  (prefix_of (classify w h) = "landscape" <-> classify w h = "16:9")
  /\ (prefix_of (classify w h) = "portrait" <-> classify w h = "9:16")
  /\ (prefix_of (classify w h) = "other" <-> classify w h = "other").
Proof.
  destruct (classify_cases w h) as [H|[H|H]]; rewrite H;
    repeat split; intros; try reflexivity; discriminate.
Qed.

Variable E : Env.
Variable fs : gmap string bytes.
Variable filePath : string.

(** C1, as the code has it.  When ffprobe reports a first stream whose
    width and height are not zero and are below [2^49] in magnitude,
    [getVideoAspectRatio] succeeds, and its answer, with the prefix the
    handler derives from it, is 16:9 (landscape) exactly when the ratio
    width/height lies in [1.70, 1.80], 9:16 (portrait) exactly when it lies
    in [0.55, 0.58], and other exactly when it lies in neither. *)
Theorem aspect_ratio_bands (stdout : string) (output : FFProbeOutput)
    (first : Stream) (rest : list Stream) :
  ffprobe_Run E (fs !! filePath) = Ok stdout ->
  json_Unmarshal E stdout = Ok output ->
  Streams output = first :: rest ->
  Width first <> 0 -> Height first <> 0 ->
  Z.abs (Width first) < 2 ^ 49 -> Z.abs (Height first) < 2 ^ 49 ->
  let r := exact_ratio (Width first) (Height first) in
  exists aspectRatio,
    getVideoAspectRatio E fs filePath = (aspectRatio, None)
    /\ (aspectRatio = "16:9" <-> in_band (17 # 10) (18 # 10) r)
    /\ (aspectRatio = "9:16" <-> in_band (55 # 100) (58 # 100) r)
    /\ (aspectRatio = "other"
        <-> ~ in_band (17 # 10) (18 # 10) r /\ ~ in_band (55 # 100) (58 # 100) r)
    /\ (prefix_of aspectRatio = "landscape" <-> in_band (17 # 10) (18 # 10) r)
    /\ (prefix_of aspectRatio = "portrait" <-> in_band (55 # 100) (58 # 100) r)
    /\ (prefix_of aspectRatio = "other"
        <-> ~ in_band (17 # 10) (18 # 10) r /\ ~ in_band (55 # 100) (58 # 100) r).
Proof.
  intros Hrun Hjson Hstreams Hw Hh Hwb Hhb r.
  exists (classify (Width first) (Height first)).
  unfold getVideoAspectRatio. rewrite Hrun, Hjson, Hstreams.
  destruct (Z.eqb_spec (Width first) 0) as [|_]; [contradiction|].
  destruct (Z.eqb_spec (Height first) 0) as [|_]; [contradiction|].
  cbn [orb]. split; [reflexivity|].
  destruct (classify_exact (Width first) (Height first) Hw Hh Hwb Hhb)
    as (H1 & H2 & H3).
  destruct (prefix_of_classify (Width first) (Height first)) as (P1 & P2 & P3).
  fold r in H1, H2, H3.
  split; [exact H1|]. split; [exact H2|]. split; [exact H3|].
  split; [exact (iff_trans P1 H1)|].
  split; [exact (iff_trans P2 H2)|exact (iff_trans P3 H3)].
Qed.

End AspectRatioFacts.

Lemma aspect_ratio_bands_witness :
  exists aspectRatio,
    Pipeline.getVideoAspectRatio (Samples.probing 17 10) Samples.staged
      Samples.location
    = (aspectRatio, None)
    /\ (aspectRatio = "16:9"
        <-> Float64.in_band (17 # 10) (18 # 10) (Float64.exact_ratio 17 10)).
Proof.
  destruct (aspect_ratio_bands (Samples.probing 17 10) Samples.staged
              Samples.location
              "{}" (Pipeline.mkFFProbeOutput [Pipeline.mkStream 17 10])
              (Pipeline.mkStream 17 10) [])
    as (aspectRatio & Hrun & H1 & _);
    try reflexivity; try discriminate.
  exists aspectRatio. split; assumption.
Defined.

(** The four constants are the correctly rounded quotients 17/10, 18/10,
    55/100 and 58/100, that is, the binary64 numbers nearest to the decimal
    literals of the source. *)
Example constants_nearest :
  Float64.c1_7 = Float64.div (Float64.of_int 17) (Float64.of_int 10)
  /\ Float64.c1_8 = Float64.div (Float64.of_int 18) (Float64.of_int 10)
  /\ Float64.c0_55 = Float64.div (Float64.of_int 55) (Float64.of_int 100)
  /\ Float64.c0_58 = Float64.div (Float64.of_int 58) (Float64.of_int 100).
Proof. repeat split; vm_compute; reflexivity. Qed.

(** The boundary cases of the bands. *)
Example classify_boundaries :
  Pipeline.classify 17 10 = "16:9"
  /\ Pipeline.classify 18 10 = "16:9"
  /\ Pipeline.classify 549999 1000000 = "other"
  /\ Pipeline.classify 1280 720 = "16:9"
  /\ Pipeline.classify 720 1280 = "9:16".
Proof. repeat split; vm_compute; reflexivity. Qed.

(** C1 as stated fails for dimensions that no video has but an [int] can
    hold: the ratio of 1700000000000005 to 1000000000000003 is below 1.70,
    its binary64 quotient is the binary64 constant 1.7 itself, and the
    stream is classified 16:9. *)
Lemma huge_dimensions_misclassified :
  let width := 1700000000000005 in
  let height := 1000000000000003 in
  Pipeline.getVideoAspectRatio (Samples.probing width height) Samples.staged
    Samples.location
  = ("16:9", None)
  /\ Float64.div (Float64.of_int width) (Float64.of_int height) = Float64.c1_7
  /\ ~ Float64.in_band (17 # 10) (18 # 10) (Float64.exact_ratio width height).
Proof.
  split; [vm_compute; reflexivity|]. split; [vm_compute; reflexivity|].
  unfold Float64.in_band, Float64.exact_ratio, Qle. cbn. lia.
Qed.

(** ** The helpers on their own *)

Section HelperFacts.
Import Float64 Pipeline.

Variable E : Env.

(** [dbVideoToSignedVideo] changes nothing but the [VideoURL] of the record,
    and not even that when it fails. *)
Theorem signed_video_keeps_fields (video : Video) :
  let res := dbVideoToSignedVideo E video in
  ID (fst res) = ID video
  /\ UserID (fst res) = UserID video
  /\ ThumbnailURL (fst res) = ThumbnailURL video
  /\ (snd res <> None -> fst res = video).
Proof.
  unfold dbVideoToSignedVideo.
  destruct (VideoURL video) as [url|]; [|cbn; tauto].
  destruct (String.eqb url ""); [cbn; tauto|].
  destruct (negb _); [cbn; tauto|].
  destruct (generatePresignedURL E _ _ time_Hour) as [u [err|]]; cbn; tauto.
Qed.

(** [getVideoAspectRatio] succeeds exactly when ffprobe ran, its output
    parsed, and the first stream has a width and a height that are not
    zero; then it answers one of the three classes, from the first stream
    alone; otherwise it answers the empty string with the error. *)
Theorem aspect_ratio_outcomes (fs : gmap string bytes) (filePath : string) :
  let res := getVideoAspectRatio E fs filePath in
  (snd res = None
   <-> exists stdout output first rest,
         ffprobe_Run E (fs !! filePath) = Ok stdout
         /\ json_Unmarshal E stdout = Ok output
         /\ Streams output = first :: rest
         /\ Width first <> 0 /\ Height first <> 0
         /\ fst res = classify (Width first) (Height first))
  /\ (snd res = None ->
      fst res = "16:9" \/ fst res = "9:16" \/ fst res = "other")
  /\ (snd res <> None -> fst res = "").
Proof.
  unfold getVideoAspectRatio.
  destruct (ffprobe_Run E (fs !! filePath)) as [stdout|e1] eqn:Hrun.
  2:{ cbn. repeat split; try discriminate; try tauto.
      intros (? & ? & ? & ? & H & _); discriminate H. }
  destruct (json_Unmarshal E stdout) as [output|e2] eqn:Hjson.
  2:{ cbn. repeat split; try discriminate; try tauto.
      intros (? & ? & ? & ? & H1 & H2 & _). congruence. }
  destruct (Streams output) as [|first rest] eqn:Hs.
  { cbn. repeat split; try discriminate; try tauto.
    intros (? & ? & ? & ? & H1 & H2 & H3 & _). congruence. }
  destruct (Z.eqb_spec (Width first) 0) as [Hw|Hw];
    [|destruct (Z.eqb_spec (Height first) 0) as [Hh|Hh]]; cbn [orb fst snd].
  - repeat split; try discriminate; try tauto.
    intros (so & o & f & rs & H1 & H2 & H3 & Hw' & _).
    assert (f = first) by congruence. subst f. contradiction.
  - repeat split; try discriminate; try tauto.
    intros (so & o & f & rs & H1 & H2 & H3 & _ & Hh' & _).
    assert (f = first) by congruence. subst f. contradiction.
  - split; [|split]; [|intros _; apply classify_cases|intros H; contradiction].
    split; [intros _|reflexivity].
    exists stdout, output, first, rest. repeat split; assumption.
Qed.

(** A first stream without dimensions, as an audio stream has it, is an
    error whatever streams follow. *)
Theorem zero_dimension_rejected (fs : gmap string bytes) (filePath stdout : string)
    (output : FFProbeOutput) (first : Stream) (rest : list Stream) :
  ffprobe_Run E (fs !! filePath) = Ok stdout ->
  json_Unmarshal E stdout = Ok output ->
  Streams output = first :: rest ->
  Width first = 0 \/ Height first = 0 ->
  getVideoAspectRatio E fs filePath
  = ("", Some ("invalid dimensions: width=" +:+ pretty (Width first)
               +:+ ", height=" +:+ pretty (Height first))).
Proof.
  intros H1 H2 H3 Hz. unfold getVideoAspectRatio. rewrite H1, H2, H3.
  destruct Hz as [-> | ->]; [reflexivity|].
  rewrite Z.eqb_refl, orb_true_r. reflexivity.
Qed.

(** Videos of the true ratios 16:9 and 9:16 are landscape and portrait at
    every resolution, and those of the ratios 4:3 and 1:1 are neither. *)
Theorem true_ratios_classified (k : Z) :
  0 < k -> 16 * k < 2 ^ 49 ->
  prefix_of (classify (16 * k) (9 * k)) = "landscape"
  /\ prefix_of (classify (9 * k) (16 * k)) = "portrait"
  /\ prefix_of (classify (4 * k) (3 * k)) = "other"
  /\ prefix_of (classify k k) = "other".
Proof.
  intros Hk Hb.
  assert (forall w h, 0 < w < 2 ^ 49 -> 0 < h < 2 ^ 49 ->
            (17 * h <= 10 * w <= 18 * h -> classify w h = "16:9")
            /\ (55 * h <= 100 * w <= 58 * h -> classify w h = "9:16")
            /\ (~ (17 * h <= 10 * w <= 18 * h)
                -> ~ (55 * h <= 100 * w <= 58 * h) -> classify w h = "other"))
    as Hcls.
  { intros w h Hw Hh.
    destruct (classify_exact w h ltac:(lia) ltac:(lia) ltac:(lia) ltac:(lia))
      as (H1 & H2 & H3).
    assert (in_band (17 # 10) (18 # 10) (exact_ratio w h)
            <-> 17 * h <= 10 * w <= 18 * h) as B1.
    { unfold in_band. rewrite exact_ratio_ge, exact_ratio_le by lia.
      replace (Z.sgn h) with 1 by lia. replace (Z.abs h) with h by lia. lia. }
    assert (in_band (55 # 100) (58 # 100) (exact_ratio w h)
            <-> 55 * h <= 100 * w <= 58 * h) as B2.
    { unfold in_band. rewrite exact_ratio_ge, exact_ratio_le by lia.
      replace (Z.sgn h) with 1 by lia. replace (Z.abs h) with h by lia. lia. }
    split; [|split]; intros; [apply H1|apply H2|apply H3]; tauto. }
  destruct (Hcls (16 * k) (9 * k) ltac:(lia) ltac:(lia)) as (H1 & _ & _).
  destruct (Hcls (9 * k) (16 * k) ltac:(lia) ltac:(lia)) as (_ & H2 & _).
  destruct (Hcls (4 * k) (3 * k) ltac:(lia) ltac:(lia)) as (_ & _ & H3).
  destruct (Hcls k k ltac:(lia) ltac:(lia)) as (_ & _ & H4).
  rewrite H1, H2, H3, H4 by lia. repeat split; reflexivity.
Qed.

(** A negative dimension is no error: a stream whose width and height have
    opposite signs is classified other. *)
Theorem negative_ratio_other (w h : Z) :
  w * h < 0 -> Z.abs w < 2 ^ 49 -> Z.abs h < 2 ^ 49 ->
  classify w h = "other".
Proof.
  intros Hneg Hw Hh.
  assert (w <> 0 /\ h <> 0) as [Hw0 Hh0] by nia.
  destruct (classify_exact w h Hw0 Hh0 Hw Hh) as (_ & _ & H3).
  apply H3. unfold in_band.
  assert (w * Z.sgn h < 0) by nia.
  split; intros [H1 H2]; rewrite exact_ratio_ge in H1 by assumption; lia.
Qed.

(** The class depends on the ratio alone: multiplying both dimensions by
    the same factor does not change it. *)
Theorem classify_scale_invariant (w h k : Z) :
  w <> 0 -> h <> 0 -> k <> 0 ->
  Z.abs (k * w) < 2 ^ 49 -> Z.abs (k * h) < 2 ^ 49 ->
  classify (k * w) (k * h) = classify w h.
Proof.
  intros Hw Hh Hk Hkw Hkh.
  assert (Z.abs w < 2 ^ 49 /\ Z.abs h < 2 ^ 49) as [Hwb Hhb] by nia.
  destruct (classify_exact w h Hw Hh Hwb Hhb) as (A1 & A2 & A3).
  destruct (classify_exact (k * w) (k * h) ltac:(nia) ltac:(nia) Hkw Hkh)
    as (B1 & B2 & B3).
  assert (forall n d : positive,
             ((Zpos n # d) <= exact_ratio (k * w) (k * h))%Q
             <-> ((Zpos n # d) <= exact_ratio w h)%Q) as Hge.
  { intros n d. rewrite !exact_ratio_ge by nia.
    rewrite Z.abs_mul, Z.sgn_mul.
    replace (k * w * (Z.sgn k * Z.sgn h)) with (w * Z.sgn h * Z.abs k)
      by (rewrite <- (Z.sgn_abs k) at 1; ring).
    rewrite (Z.mul_comm (Z.abs k)), !Z.mul_assoc.
    symmetry. apply Z.mul_le_mono_pos_r. lia. }
  assert (forall n d : positive,
             (exact_ratio (k * w) (k * h) <= (Zpos n # d))%Q
             <-> (exact_ratio w h <= (Zpos n # d))%Q) as Hle.
  { intros n d. rewrite !exact_ratio_le by nia.
    rewrite Z.abs_mul, Z.sgn_mul.
    replace (k * w * (Z.sgn k * Z.sgn h)) with (w * Z.sgn h * Z.abs k)
      by (rewrite <- (Z.sgn_abs k) at 1; ring).
    rewrite (Z.mul_comm (Z.abs k)), !Z.mul_assoc.
    symmetry. apply Z.mul_le_mono_pos_r. lia. }
  assert (forall lo hi : positive * positive,
             in_band (Zpos (fst lo) # snd lo) (Zpos (fst hi) # snd hi)
               (exact_ratio (k * w) (k * h))
             <-> in_band (Zpos (fst lo) # snd lo) (Zpos (fst hi) # snd hi)
                   (exact_ratio w h)) as Hband.
  { intros lo hi. unfold in_band.
    pose proof (Hge (fst lo) (snd lo)). pose proof (Hle (fst hi) (snd hi)).
    tauto. }
  pose proof (Hband (17, 10) (18, 10))%positive as C1.
  pose proof (Hband (55, 100) (58, 100))%positive as C2.
  cbn [fst snd] in C1, C2.
  destruct (classify_cases w h) as [H|[H|H]]; rewrite H.
  - apply B1. tauto.
  - apply B2. tauto.
  - apply B3. tauto.
Qed.

End HelperFacts.

Section EncodeFacts.
Import Locator.

(** Two pairs of a comma-free bucket and a key never share a locator. *)
Theorem encode_injective (b b' k k' : string) :
  Count b = O -> Count b' = O ->
  encode b k = encode b' k' -> b = b' /\ k = k'.
Proof.
  unfold encode. change ("," +:+ k) with (String comma k).
  change ("," +:+ k') with (String comma k').
  revert b'. induction b as [|c b IH]; intros [|c' b']; simpl.
  - intros _ _ H. injection H as ->. split; reflexivity.
  - destruct (Ascii.eqb_spec c' comma) as [->|Hc]; [discriminate|].
    intros _ _ H. injection H as H _. congruence.
  - destruct (Ascii.eqb_spec c comma) as [->|Hc]; [discriminate|].
    intros _ _ H. injection H as H _. congruence.
  - destruct (Ascii.eqb c comma); [discriminate|].
    destruct (Ascii.eqb c' comma); [discriminate|].
    intros Hb Hb' H. injection H as -> H.
    destruct (IH b' Hb Hb' H) as [-> ->]. split; reflexivity.
Qed.

End EncodeFacts.

(** ** The handler *)

Section HandlerFacts.
Import Pipeline.

Variable cfg : apiConfig.
Variable E : Env.
Variable r : Request.
Variable fs : gmap string bytes.
Variable objects : list PutObjectInput.
Variable db : gmap UUID Video.

#[local] Arguments getVideoAspectRatio : simpl never.
#[local] Arguments dbVideoToSignedVideo : simpl never.
#[local] Arguments prefix_of : simpl never.
#[local] Arguments Locator.encode : simpl never.
#[local] Arguments String.append : simpl never.
#[local] Arguments String.eqb : simpl never.
#[local] Arguments N.eqb : simpl never.
#[local] Arguments Z.ltb : simpl never.
#[local] Arguments Z.shiftl : simpl never.

(** Symbolic execution: unfold the monad, then split on the result of one
    call after the other, innermost first. *)
Ltac exec :=
  unfold handlerUploadVideo, handlerUploadVideo_body, processVideoForFastStart,
    GetVideo, CreateTemp, Copy, Open, PutObject, UpdateVideo, attempt, check,
    respondWithError, respondWithJSON, step, defer, modify, get, bind, ret,
    return_, entry, run_deferred; cbn.

Ltac atomic x :=
  lazymatch x with
  | context [match _ with _ => _ end] => fail
  | _ => idtac
  end.

Ltac branch :=
  match goal with
  | |- context [match ?x with _ => _ end] => atomic x; destruct x eqn:?
  end; cbn; rewrite ?insert_insert_eq, ?lookup_insert_eq.

Ltac norm :=
  repeat match goal with
    | H : negb _ = false |- _ => apply negb_false_iff in H
    | H : negb _ = true |- _ => apply negb_true_iff in H
    | H : N.eqb _ _ = true |- _ => apply N.eqb_eq in H
    | H : N.eqb _ _ = false |- _ => apply N.eqb_neq in H
    | H : String.eqb _ _ = true |- _ => apply String.eqb_eq in H
    | H : String.eqb _ _ = false |- _ => apply String.eqb_neq in H
    end.

Ltac find_prefix n :=
  first [ exists n; eexists; split; [reflexivity|split; [reflexivity|]]
        | match n with
          | 25%nat => fail 1
          | _ => find_prefix (S n)
          end ].

Lemma ParseMultipartForm_oversize limit :
  limit < FormLength r ->
  ParseMultipartForm r limit = Err "http: request body too large".
Proof.
  intros H. unfold ParseMultipartForm.
  destruct (Z.ltb_spec limit (FormLength r)); [reflexivity|lia].
Qed.

Lemma length_append (a b : string) :
  String.length (a +:+ b) = (String.length a + String.length b)%nat.
Proof. induction a as [|c a IH]; simpl; [reflexivity | now rewrite IH]. Qed.

Lemma processing_path_differs (name : string) : name +:+ ".processing" <> name.
Proof.
  intros H. apply (f_equal String.length) in H.
  rewrite length_append in H. simpl in H. lia.
Qed.

(** C8.  The log of a call is an initial part of the reference order, in
    which the identifier is parsed, then the caller authenticated, then the
    record fetched, then the owner checked, then the body parsed, followed
    only by the deferred clean-up; and a call that stages request bytes on
    disk has begun with these steps in this order and has passed the
    ownership check. *)
Theorem upload_steps_in_order :
  let s' := handlerUploadVideo cfg E r (entry fs objects db) in
  exists n cleanup,
    log s' = (take n reference_order ++ cleanup)%list
    /\ forallb is_cleanup cleanup = true
    /\ (existsb is_staging (log s') = true ->
        (5 < n)%nat
        /\ take 6 (log s')
           = [StepParseID; StepGetBearerToken; StepValidateJWT; StepGetVideo;
              StepCheckOwner; StepParseMultipartForm]
        /\ exists videoID token userID video,
          uuid_Parse E (PathValue r "videoID") = Ok videoID
          /\ auth_GetBearerToken E (Header r) = Ok token
          /\ auth_ValidateJWT E token (jwtSecret cfg) = Ok userID
          /\ db !! videoID = Some video
          /\ UserID video = userID).
Proof.
  exec. repeat branch; norm; find_prefix 0%nat; cbn; try discriminate.
  all: intros _; split; [lia|]; split; [reflexivity|]; subst.
  all: do 4 eexists; repeat split; eassumption.
Qed.

(** C4, as the code has it.  A caller who is authenticated and is not the
    owner of the record is answered with 401 Unauthorized; nothing is put
    in the bucket, no record is updated and nothing is staged. *)
Theorem nonowner_rejected_unauthorized videoID token userID video :
  uuid_Parse E (PathValue r "videoID") = Ok videoID ->
  auth_GetBearerToken E (Header r) = Ok token ->
  auth_ValidateJWT E token (jwtSecret cfg) = Ok userID ->
  db !! videoID = Some video ->
  UserID video <> userID ->
  let s' := handlerUploadVideo cfg E r (entry fs objects db) in
  written s' = Some (mkResponse StatusUnauthorized
                       (ErrorPayload "User not authorized to update this video"))
  /\ bucket s' = objects
  /\ videos s' = db
  /\ tmp s' = fs
  /\ ~ In StepPutObject (log s')
  /\ ~ In StepUpdateVideo (log s').
Proof.
  intros H1 H2 H3 H4 H5. exec.
  rewrite H1; cbn. rewrite H2; cbn. rewrite H3; cbn. rewrite H4; cbn.
  apply N.eqb_neq in H5. rewrite H5; cbn.
  repeat split; try reflexivity; intros H; cbn in H; intuition discriminate.
Qed.

(** C7, as the code has it.  A request whose multipart form does not end
    within the first 1 GiB of the body, so that reading it takes a read past
    the bound, is rejected before any temporary file is created: the answer
    is an error, no staging step is reached, and the temp directory, the
    bucket and the records are as before.  Once the identifier, the
    credentials, the record and its owner have passed, the answer is 400 Bad
    Request, "Couldn't parse form". *)
Theorem oversize_rejected_bad_request :
  Z.shiftl 1 30 < FormLength r ->
  let s' := handlerUploadVideo cfg E r (entry fs objects db) in
  (exists code msg,
      written s' = Some (mkResponse code (ErrorPayload msg))
      /\ 400 <= code)
  /\ existsb is_staging (log s') = false
  /\ tmp s' = fs /\ bucket s' = objects /\ videos s' = db
  /\ (forall videoID token userID video,
        uuid_Parse E (PathValue r "videoID") = Ok videoID ->
        auth_GetBearerToken E (Header r) = Ok token ->
        auth_ValidateJWT E token (jwtSecret cfg) = Ok userID ->
        db !! videoID = Some video ->
        UserID video = userID ->
        written s' = Some (mkResponse StatusBadRequest
                             (ErrorPayload "Couldn't parse form"))).
Proof.
  intros Hlen. exec.
  rewrite (ParseMultipartForm_oversize _ Hlen).
  repeat branch; norm.
  all: repeat split; try reflexivity.
  all: try (do 2 eexists; split; [reflexivity|]; vm_compute; discriminate).
  all: intros; simplify_eq; try reflexivity; try congruence.
Qed.


Lemma ParseMultipartForm_Ok limit form :
  ParseMultipartForm r limit = Ok form -> BodyForm r = Ok form.
Proof.
  unfold ParseMultipartForm. destruct (limit <? FormLength r); [discriminate|auto].
Qed.

Lemma FormFile_of_Ok form name file :
  FormFile_of form name = Ok file -> form name = Some file.
Proof. unfold FormFile_of. destruct (form name); [congruence|discriminate]. Qed.

(** C6, as the code has it.  A request whose declared content type does not
    parse to the media type video/mp4 is rejected and nothing is staged: the
    answer is an error, no staging step is reached, and the temp directory,
    the bucket and the records are as before.  Once the steps before it have
    passed, the answer is 400 Bad Request, with "Invalid Content-Type
    header" when the declared type does not parse and "Invalid file type.
    Only MP4 videos are allowed" when it parses to another type. *)
Theorem non_mp4_rejected_bad_request :
  (forall form file,
      BodyForm r = Ok form -> form "video" = Some file ->
      mime_ParseMediaType E (Header_ContentType file) <> Ok "video/mp4") ->
  let s' := handlerUploadVideo cfg E r (entry fs objects db) in
  (exists code msg,
      written s' = Some (mkResponse code (ErrorPayload msg))
      /\ 400 <= code)
  /\ existsb is_staging (log s') = false
  /\ tmp s' = fs /\ bucket s' = objects /\ videos s' = db
  /\ (forall videoID token userID video form file,
        uuid_Parse E (PathValue r "videoID") = Ok videoID ->
        auth_GetBearerToken E (Header r) = Ok token ->
        auth_ValidateJWT E token (jwtSecret cfg) = Ok userID ->
        db !! videoID = Some video ->
        UserID video = userID ->
        ParseMultipartForm r (Z.shiftl 1 30) = Ok form ->
        form "video" = Some file ->
        written s'
        = Some (mkResponse StatusBadRequest
                  (ErrorPayload
                     match mime_ParseMediaType E (Header_ContentType file) with
                     | Err _ => "Invalid Content-Type header"
                     | Ok _ => "Invalid file type. Only MP4 videos are allowed"
                     end))).
Proof.
  intros Hct. exec.
  repeat branch; norm.
  all: try match goal with
         | HP : ParseMultipartForm r _ = Ok ?f, HF : FormFile_of ?f _ = Ok ?x,
           HM : mime_ParseMediaType E (Header_ContentType ?x) = Ok ?m,
           Hm : ?m = "video/mp4" |- _ =>
             exfalso; subst m;
             exact (Hct f x (ParseMultipartForm_Ok _ _ HP) (FormFile_of_Ok _ _ _ HF) HM)
         end.
  all: repeat split; try reflexivity.
  all: try (do 2 eexists; split; [reflexivity|]; vm_compute; discriminate).
  all: intros; simplify_eq;
    repeat match goal with
      | HF : FormFile_of _ _ = Ok _ |- _ => apply FormFile_of_Ok in HF
      | HF : FormFile_of ?f ?n = Err _, HS : ?f ?n = Some _ |- _ =>
          unfold FormFile_of in HF; rewrite HS in HF; discriminate
      end;
    simplify_eq; try congruence.
  all: match goal with
       | HM : mime_ParseMediaType _ _ = _ |- _ => rewrite HM; reflexivity
       end.
Qed.

(** C5, as the code has it.  When the upload succeeds (the answer is 200),
    one object has been put in the bucket of the configuration, under the
    derived key; its content type is the media type video/mp4 that the
    declared content type parsed to, which is the declared content type
    only when that has no parameters; and its body is the file at the
    output path of the remux, which ffmpeg was given the staged upload to
    produce, not the staged upload itself. *)
Theorem upload_sends_remuxed_file :
  let s' := handlerUploadVideo cfg E r (entry fs objects db) in
  StatusCode <$> written s' = Some StatusOK ->
  exists form file tempFile randomBytes aspectRatio object,
    BodyForm r = Ok form
    /\ form "video" = Some file
    /\ mime_ParseMediaType E (Header_ContentType file) = Ok "video/mp4"
    /\ os_CreateTemp E = Ok tempFile
    /\ getVideoAspectRatio E (<[tempFile := file_data file]> fs) tempFile
       = (aspectRatio, None)
    /\ rand_Read E = Ok randomBytes
    /\ bucket s' = object :: objects
    /\ Bucket object = s3Bucket cfg
    /\ Key object = prefix_of aspectRatio +:+ "/"
                    +:+ base64_RawURLEncoding E randomBytes +:+ ".mp4"
    /\ ContentType object = "video/mp4"
    /\ Run_err (ffmpeg_Run E (Some (file_data file))) = None
    /\ match wrote (ffmpeg_Run E (Some (file_data file))) with
       | Some data => Body object = data
       | None => fs !! (tempFile +:+ ".processing") = Some (Body object)
       end.
Proof.
  exec. repeat branch; norm.
  all: intros Hok; try discriminate Hok.
  all: repeat match goal with
         | HP : ParseMultipartForm r _ = Ok _ |- _ => apply ParseMultipartForm_Ok in HP
         | HF : FormFile_of _ _ = Ok _ |- _ => apply FormFile_of_Ok in HF
         end; subst.
  all: match goal with
       | |- context [getVideoAspectRatio E ?m ?t] =>
           do 4 eexists; exists (fst (getVideoAspectRatio E m t)); eexists
       end.
  all: repeat (split; [first [eassumption | reflexivity
                             | apply injective_projections; [reflexivity|assumption]]|]).
  all: cbn; match goal with H : wrote _ = _ |- _ => rewrite H end;
    try reflexivity.
  match goal with
  | H : <[?t := _]> fs !! _ = Some _ |- _ =>
      rewrite lookup_insert_ne in H
        by (apply not_eq_sym, processing_path_differs);
      exact H
  end.
Qed.


(** The staging file never outlives the call. *)
Lemma staging_file_removed tempFile :
  os_CreateTemp E = Ok tempFile ->
  fs !! tempFile = None ->
  tmp (handlerUploadVideo cfg E r (entry fs objects db)) !! tempFile = None.
Proof.
  intros HT Hfresh. exec. repeat branch.
  all: simplify_eq; rewrite ?lookup_delete_eq; try assumption; try reflexivity.
  all: rewrite lookup_delete_ne by apply processing_path_differs.
  all: rewrite lookup_delete_eq; reflexivity.
Qed.

(** When the remux does not both fail and leave a file behind, the temp
    directory is after the call what it was before. *)
Lemma temp_dir_restored :
  (forall tempFile, os_CreateTemp E = Ok tempFile ->
     fs !! tempFile = None /\ fs !! (tempFile +:+ ".processing") = None) ->
  (forall input, Run_err (ffmpeg_Run E input) <> None ->
     wrote (ffmpeg_Run E input) = None) ->
  tmp (handlerUploadVideo cfg E r (entry fs objects db)) = fs.
Proof.
  intros Hfresh Hquiet. exec. repeat branch.
  all: try reflexivity.
  all: match goal with
       | HT : os_CreateTemp E = Ok ?t |- _ =>
           destruct (Hfresh t eq_refl) as [Ht Ho];
           pose proof (processing_path_differs t) as Hne
       end.
  all: try match goal with
         | HR : Run_err (ffmpeg_Run E ?i) = Some _,
           HW : wrote (ffmpeg_Run E ?i) = Some _ |- _ =>
             rewrite Hquiet in HW by (rewrite HR; discriminate); discriminate
         end.
  all: apply map_eq; intros i;
    repeat match goal with
      | |- context [delete ?k _ !! i] =>
          destruct (decide (k = i)) as [e|];
          [rewrite <- e, lookup_delete_eq | rewrite lookup_delete_ne by assumption]
      | |- context [<[?k := _]> _ !! i] =>
          rewrite lookup_insert_ne by assumption
      end; congruence.
Qed.


(** The remux step is where the clean-up has a gap: when ffmpeg fails after
    it has written to its output path, what it wrote is still in the temp
    directory when the handler has returned. *)
Lemma remux_failure_keeps_output videoID token video form file tempFile err data :
  uuid_Parse E (PathValue r "videoID") = Ok videoID ->
  auth_GetBearerToken E (Header r) = Ok token ->
  auth_ValidateJWT E token (jwtSecret cfg) = Ok (UserID video) ->
  db !! videoID = Some video ->
  ParseMultipartForm r (Z.shiftl 1 30) = Ok form ->
  form "video" = Some file ->
  mime_ParseMediaType E (Header_ContentType file) = Ok "video/mp4" ->
  os_CreateTemp E = Ok tempFile ->
  io_Copy E = None ->
  snd (getVideoAspectRatio E (<[tempFile := file_data file]> fs) tempFile) = None ->
  Run_err (ffmpeg_Run E (Some (file_data file))) = Some err ->
  wrote (ffmpeg_Run E (Some (file_data file))) = Some data ->
  let s' := handlerUploadVideo cfg E r (entry fs objects db) in
  written s' = Some (mkResponse StatusInternalServerError
                       (ErrorPayload "Couldn't process video for fast start"))
  /\ tmp s' !! tempFile = None
  /\ tmp s' !! (tempFile +:+ ".processing") = Some data.
Proof.
  intros H1 H2 H3 H4 H5 H6 H7 H8 H9 H10 H11 H12. exec.
  rewrite H1; cbn. rewrite H2; cbn. rewrite H3; cbn. rewrite H4; cbn.
  rewrite N.eqb_refl; cbn. rewrite H5; cbn.
  unfold FormFile_of. rewrite H6; cbn. rewrite H7; cbn.
  rewrite String.eqb_refl; cbn.
  rewrite H8; cbn. rewrite H9; cbn.
  rewrite insert_insert_eq, H10; cbn.
  rewrite lookup_insert_eq, H12, H11; cbn.
  split; [reflexivity|]. split; [apply lookup_delete_eq|].
  rewrite lookup_delete_ne by apply not_eq_sym, processing_path_differs.
  apply lookup_insert_eq.
Qed.


(** *** What a call leaves behind *)

(** Every exit of the handler, by what it has done to the bucket and to the
    metadata store when it answers. *)
Lemma upload_effects :
  exists t b v w l,
    handlerUploadVideo cfg E r (entry fs objects db)
    = mkState t b v (Some w) [] l
    /\ ((exists code msg,
           w = mkResponse code (ErrorPayload msg)
           /\ (code = StatusBadRequest \/ code = StatusUnauthorized
               \/ code = StatusInternalServerError)
           /\ msg <> "Couldn't update video"
           /\ msg <> "Couldn't generate presigned URL"
           /\ b = objects /\ v = db)
        \/ (exists videoID video aspectRatio randomBytes body,
              let key := prefix_of aspectRatio +:+ "/"
                         +:+ base64_RawURLEncoding E randomBytes +:+ ".mp4" in
              let updated :=
                set_VideoURL video (Locator.encode (s3Bucket cfg) key) in
              uuid_Parse E (PathValue r "videoID") = Ok videoID
              /\ db !! videoID = Some video
              /\ b = mkPutObjectInput (s3Bucket cfg) key body "video/mp4"
                     :: objects
              /\ ((w = mkResponse StatusInternalServerError
                         (ErrorPayload "Couldn't update video")
                   /\ v = db)
                  \/ (v = <[ID video := updated]> db
                      /\ ((w = mkResponse StatusInternalServerError
                                 (ErrorPayload "Couldn't generate presigned URL")
                           /\ snd (dbVideoToSignedVideo E updated) <> None)
                          \/ (w = mkResponse StatusOK
                                    (VideoPayload
                                       (fst (dbVideoToSignedVideo E updated)))
                              /\ snd (dbVideoToSignedVideo E updated) = None)))))).
Proof.
  exec. repeat branch; norm; do 5 eexists; (split; [reflexivity|]).
  all: try (left; do 2 eexists; split; [reflexivity|];
            split; [first [left; reflexivity | right; left; reflexivity
                          | right; right; reflexivity]|];
            split; [discriminate|]; split; [discriminate|];
            split; reflexivity).
  all: right; subst; do 5 eexists; cbn zeta;
    split; [reflexivity|]; split; [eassumption|]; split; [reflexivity|].
  all: first
    [ left; split; reflexivity
    | right; split; [reflexivity|];
      first [ left; split; [reflexivity|];
              match goal with H : snd _ = Some _ |- _ => rewrite H end;
              discriminate
            | right; split; [reflexivity|assumption] ] ].
Qed.


Lemma prefix_of_range (aspectRatio : string) :
  prefix_of aspectRatio = "landscape" \/ prefix_of aspectRatio = "portrait"
  \/ prefix_of aspectRatio = "other".
Proof.
  unfold prefix_of.
  destruct (String.eqb aspectRatio "16:9"); [left; reflexivity|].
  destruct (String.eqb aspectRatio "9:16"); [right; left; reflexivity|].
  right; right; reflexivity.
Qed.

(** When [dbVideoToSignedVideo] accepts the locator of a bucket and a key,
    neither holds a comma and the presigner has answered for that pair. *)
Lemma signed_locator (video : Video) (b k : string) :
  snd (dbVideoToSignedVideo E (set_VideoURL video (Locator.encode b k))) = None ->
  Locator.Count b = O /\ Locator.Count k = O
  /\ exists url,
      s3_PresignGetObject E b k time_Hour = Ok url
      /\ fst (dbVideoToSignedVideo E (set_VideoURL video (Locator.encode b k)))
         = set_VideoURL video url.
Proof.
  unfold dbVideoToSignedVideo. cbn [VideoURL set_VideoURL].
  rewrite encode_nonempty, Split_length, Count_encode.
  destruct (Locator.Count b + Locator.Count k)%nat as [|n] eqn:Hn;
    cbn [Nat.eqb negb]; [|destruct n; discriminate].
  assert (Locator.Count b = O /\ Locator.Count k = O) as [Hb Hk] by lia.
  rewrite (Split_encode b k Hb Hk). cbn [nth]. unfold generatePresignedURL.
  destruct (s3_PresignGetObject E b k time_Hour) as [url|err];
    cbn [fst snd]; [|discriminate].
  intros _. split; [assumption|]. split; [assumption|].
  exists url. split; reflexivity.
Qed.

(** C10.  When every step up to the update of the record has succeeded and
    the presigner then fails for the bucket and the key of the object, the
    handler answers 500, "Couldn't generate presigned URL", while the
    object is in the bucket and the record in the metadata store has the
    locator of that object: nothing is rolled back. *)
Theorem internal_error_after_side_effects
    videoID token video form file tempFile aspectRatio processed randomBytes
    msg :
  let key := prefix_of aspectRatio +:+ "/"
             +:+ base64_RawURLEncoding E randomBytes +:+ ".mp4" in
  let object := mkPutObjectInput (s3Bucket cfg) key processed "video/mp4" in
  let updated := set_VideoURL video (Locator.encode (s3Bucket cfg) key) in
  uuid_Parse E (PathValue r "videoID") = Ok videoID ->
  auth_GetBearerToken E (Header r) = Ok token ->
  auth_ValidateJWT E token (jwtSecret cfg) = Ok (UserID video) ->
  db !! videoID = Some video ->
  ParseMultipartForm r (Z.shiftl 1 30) = Ok form ->
  form "video" = Some file ->
  mime_ParseMediaType E (Header_ContentType file) = Ok "video/mp4" ->
  os_CreateTemp E = Ok tempFile ->
  io_Copy E = None ->
  getVideoAspectRatio E (<[tempFile := file_data file]> fs) tempFile
  = (aspectRatio, None) ->
  Run_err (ffmpeg_Run E (Some (file_data file))) = None ->
  wrote (ffmpeg_Run E (Some (file_data file))) = Some processed ->
  os_Open E = None ->
  File_Seek E = None ->
  rand_Read E = Ok randomBytes ->
  s3_PutObject E = None ->
  db_UpdateVideo E = None ->
  s3_PresignGetObject E (s3Bucket cfg) key time_Hour = Err msg ->
  let s' := handlerUploadVideo cfg E r (entry fs objects db) in
  written s' = Some (mkResponse StatusInternalServerError
                       (ErrorPayload "Couldn't generate presigned URL"))
  /\ bucket s' = object :: objects
  /\ videos s' = <[ID video := updated]> db
  /\ videos s' !! ID video = Some updated
  /\ VideoURL updated = Some (Locator.encode (Bucket object) (Key object)).
Proof.
  intros key object updated H1 H2 H3 H4 H5 H6 H7 H8 H9 H10 H11 H12 H13 H14
    H15 H16 H17 H18.
  assert (snd (dbVideoToSignedVideo E updated) <> None) as Hsig.
  { intros Hnone. destruct (signed_locator _ _ _ Hnone) as (_ & _ & url & Hurl & _).
    fold key in Hurl. rewrite H18 in Hurl. discriminate Hurl. }
  exec.
  rewrite H1; cbn. rewrite H2; cbn. rewrite H3; cbn. rewrite H4; cbn.
  rewrite N.eqb_refl; cbn. rewrite H5; cbn.
  unfold FormFile_of. rewrite H6; cbn. rewrite H7; cbn.
  rewrite String.eqb_refl; cbn.
  rewrite H8; cbn. rewrite H9; cbn.
  rewrite insert_insert_eq, H10; cbn.
  rewrite lookup_insert_eq, H12, H11; cbn.
  rewrite H13; cbn. rewrite lookup_insert_eq; cbn.
  rewrite H14; cbn. rewrite H15; cbn.
  rewrite H16; cbn. rewrite H17; cbn.
  fold key. fold updated.
  destruct (snd (dbVideoToSignedVideo E updated)) as [err|] eqn:Hs;
    [|contradiction]. cbn.
  split; [reflexivity|]. split; [reflexivity|]. split; [reflexivity|].
  split; [apply lookup_insert_eq|reflexivity].
Qed.

(** The handler always answers, with one of four status codes, and leaves
    no deferred call pending. *)
Theorem upload_always_answers :
  let s' := handlerUploadVideo cfg E r (entry fs objects db) in
  deferred s' = []
  /\ exists resp,
      written s' = Some resp
      /\ (StatusCode resp = StatusOK \/ StatusCode resp = StatusBadRequest
          \/ StatusCode resp = StatusUnauthorized
          \/ StatusCode resp = StatusInternalServerError).
Proof.
  destruct upload_effects as (t & b & v & w & l & Hs & H).
  cbv zeta. rewrite Hs. cbn [deferred written]. split; [reflexivity|].
  exists w. split; [reflexivity|].
  destruct H as [(code & msg & -> & Hc & _)
                |(videoID & video & a & rb & body & _ & _ & _ & H)].
  - cbn [StatusCode]. tauto.
  - cbv zeta in H.
    destruct H as [[-> _]|[_ [[-> _]|[-> _]]]]; cbn [StatusCode]; tauto.
Qed.

(** An error other than the two late ones leaves the bucket and the
    metadata store as they were. *)
Theorem upload_failures_without_effects (code : Z) (msg : string) :
  let s' := handlerUploadVideo cfg E r (entry fs objects db) in
  written s' = Some (mkResponse code (ErrorPayload msg)) ->
  msg <> "Couldn't update video" ->
  msg <> "Couldn't generate presigned URL" ->
  bucket s' = objects /\ videos s' = db.
Proof.
  destruct upload_effects as (t & b & v & w & l & Hs & H).
  cbv zeta. rewrite Hs. cbn [written bucket videos]. intros Hw H1 H2.
  injection Hw as ->.
  destruct H as [(code' & msg' & _ & _ & _ & _ & -> & ->)
                |(videoID & video & a & rb & body & _ & _ & _ & H)];
    [split; reflexivity|].
  cbv zeta in H.
  destruct H as [[Hw _]|[_ [[Hw _]|[Hw _]]]]; inversion Hw; subst;
    contradiction.
Qed.

(** A call puts at most one object in the bucket, under a key of the form
    prefix/name.mp4 with one of the three prefixes, in the bucket of the
    configuration and with the content type video/mp4; and the metadata
    store changes only after that, at the identifier of the fetched record,
    to the locator of that very object. *)
Theorem upload_record_follows_object :
  let s' := handlerUploadVideo cfg E r (entry fs objects db) in
  (bucket s' = objects /\ videos s' = db)
  \/ exists object prefix name video,
      bucket s' = object :: objects
      /\ Bucket object = s3Bucket cfg
      /\ Key object = prefix +:+ "/" +:+ name +:+ ".mp4"
      /\ (prefix = "landscape" \/ prefix = "portrait" \/ prefix = "other")
      /\ ContentType object = "video/mp4"
      /\ (videos s' = db
          \/ videos s'
             = <[ID video := set_VideoURL video
                               (Locator.encode (Bucket object) (Key object))]> db).
Proof.
  destruct upload_effects as (t & b & v & w & l & Hs & H).
  cbv zeta. rewrite Hs. cbn [bucket videos].
  destruct H as [(code & msg & _ & _ & _ & _ & -> & ->)
                |(videoID & video & a & rb & body & _ & _ & -> & H)];
    [left; split; reflexivity|].
  right. cbv zeta in H.
  eexists. exists (prefix_of a), (base64_RawURLEncoding E rb), video.
  split; [reflexivity|]. cbn [Bucket Key ContentType].
  split; [reflexivity|]. split; [reflexivity|].
  split; [apply prefix_of_range|]. split; [reflexivity|].
  destruct H as [[_ ->]|[-> _]]; [left|right]; reflexivity.
Qed.

(** On success the metadata store holds, at the identifier of the fetched
    record, that record with the locator "bucket,key" of the object just
    stored, while the answer carries the same record with the URL the
    presigner gave for that bucket and key. *)
Theorem upload_success_record :
  let s' := handlerUploadVideo cfg E r (entry fs objects db) in
  StatusCode <$> written s' = Some StatusOK ->
  exists videoID video object url,
    uuid_Parse E (PathValue r "videoID") = Ok videoID
    /\ db !! videoID = Some video
    /\ bucket s' = object :: objects
    /\ Bucket object = s3Bucket cfg
    /\ videos s'
       = <[ID video := set_VideoURL video
                         (Locator.encode (s3Bucket cfg) (Key object))]> db
    /\ s3_PresignGetObject E (s3Bucket cfg) (Key object) time_Hour = Ok url
    /\ written s' = Some (mkResponse StatusOK
                            (VideoPayload (set_VideoURL video url))).
Proof.
  destruct upload_effects as (t & b & v & w & l & Hs & H).
  cbv zeta. rewrite Hs. cbn [written bucket videos fmap option_fmap option_map].
  intros Hok. injection Hok as Hok.
  destruct H as [(code & msg & -> & Hc & _)
                |(videoID & video & a & rb & body & Hid & Hv & -> & H)].
  - cbn [StatusCode] in Hok. subst code.
    destruct Hc as [Hc|[Hc|Hc]]; discriminate Hc.
  - cbv zeta in H.
    destruct H as [[-> _]|[-> [[-> _]|[-> Hsig]]]]; try discriminate Hok.
    destruct (signed_locator _ _ _ Hsig) as (_ & _ & url & Hurl & Hfst).
    exists videoID, video. eexists. exists url.
    split; [assumption|]. split; [assumption|]. split; [reflexivity|].
    cbn [Bucket Key]. split; [reflexivity|]. split; [reflexivity|].
    split; [assumption|]. rewrite Hfst. reflexivity.
Qed.

(** A bucket name that holds a comma makes every upload fail: the locator
    the handler writes cannot be signed. *)
Theorem comma_bucket_never_succeeds :
  Locator.Count (s3Bucket cfg) <> O ->
  StatusCode <$> written (handlerUploadVideo cfg E r (entry fs objects db))
  <> Some StatusOK.
Proof.
  intros Hcomma.
  destruct upload_effects as (t & b & v & w & l & Hs & H).
  rewrite Hs. cbn [written fmap option_fmap option_map].
  intros Hok. injection Hok as Hok.
  destruct H as [(code & msg & -> & Hc & _)
                |(videoID & video & a & rb & body & Hid & Hv & -> & H)].
  - cbn [StatusCode] in Hok. subst code.
    destruct Hc as [Hc|[Hc|Hc]]; discriminate Hc.
  - cbv zeta in H.
    destruct H as [[-> _]|[-> [[-> _]|[-> Hsig]]]]; try discriminate Hok.
    destruct (signed_locator _ _ _ Hsig) as (Hb & _). contradiction.
Qed.


(** A caller without a valid token is answered before the metadata store
    is consulted, and nothing changes: the answer is 401 when the
    identifier of the video parses, and 400, "Invalid video ID", when it
    does not. *)
Theorem unauthenticated_rejected :
  (forall token userID,
      auth_GetBearerToken E (Header r) = Ok token ->
      auth_ValidateJWT E token (jwtSecret cfg) <> Ok userID) ->
  let s' := handlerUploadVideo cfg E r (entry fs objects db) in
  match uuid_Parse E (PathValue r "videoID") with
  | Ok _ => StatusCode <$> written s' = Some StatusUnauthorized
  | Err _ => written s' = Some (mkResponse StatusBadRequest
                                  (ErrorPayload "Invalid video ID"))
  end
  /\ ~ In StepGetVideo (log s')
  /\ tmp s' = fs /\ bucket s' = objects /\ videos s' = db.
Proof.
  intros Hauth. exec.
  destruct (uuid_Parse E (PathValue r "videoID")) as [videoID|e] eqn:H1; cbn.
  - destruct (auth_GetBearerToken E (Header r)) as [token|e] eqn:H2; cbn.
    + destruct (auth_ValidateJWT E token (jwtSecret cfg)) as [userID|e] eqn:H3;
        cbn; [exfalso; exact (Hauth token userID eq_refl H3)|].
      repeat split; intros H; cbn in H; intuition discriminate.
    + repeat split; intros H; cbn in H; intuition discriminate.
  - repeat split; intros H; cbn in H; intuition discriminate.
Qed.

(** An identifier that the metadata store does not have is answered 500,
    "Couldn't get video", and nothing changes. *)
Theorem unknown_video_internal_error videoID token userID :
  uuid_Parse E (PathValue r "videoID") = Ok videoID ->
  auth_GetBearerToken E (Header r) = Ok token ->
  auth_ValidateJWT E token (jwtSecret cfg) = Ok userID ->
  db !! videoID = None ->
  let s' := handlerUploadVideo cfg E r (entry fs objects db) in
  written s' = Some (mkResponse StatusInternalServerError
                       (ErrorPayload "Couldn't get video"))
  /\ tmp s' = fs /\ bucket s' = objects /\ videos s' = db.
Proof.
  intros H1 H2 H3 H4. exec.
  rewrite H1; cbn. rewrite H2; cbn. rewrite H3; cbn. rewrite H4; cbn.
  repeat split.
Qed.

End HandlerFacts.

(** ** The thumbnail handler *)

Section ThumbnailFacts.
Import Pipeline.

Variable cfg : Thumbnail.apiConfig.
Variable E : Thumbnail.Env.
Variable r : Request.
Variable fs : gmap string bytes.
Variable objects : list PutObjectInput.
Variable db : gmap UUID Video.

#[local] Arguments String.append : simpl never.
#[local] Arguments String.eqb : simpl never.
#[local] Arguments N.eqb : simpl never.
#[local] Arguments Thumbnail.fileExtension_of : simpl never.
#[local] Arguments Thumbnail.maxMemory : simpl never.

Ltac exec :=
  unfold Thumbnail.handlerUploadThumbnail, Thumbnail.handlerUploadThumbnail_body,
    Thumbnail.ParseMultipartForm, Thumbnail.Create,
    GetVideo, Copy, UpdateVideo, attempt, check,
    respondWithError, respondWithJSON, defer, modify, get, bind, ret,
    return_, entry, run_deferred; cbn.

Ltac atomic x :=
  lazymatch x with
  | context [match _ with _ => _ end] => fail
  | _ => idtac
  end.

Ltac branch :=
  match goal with
  | |- context [match ?x with _ => _ end] => atomic x; destruct x eqn:?
  end; cbn; rewrite ?insert_insert_eq.

Ltac norm :=
  repeat match goal with
    | H : negb _ = false |- _ => apply negb_false_iff in H
    | H : negb _ = true |- _ => apply negb_true_iff in H
    | H : N.eqb _ _ = true |- _ => apply N.eqb_eq in H
    | H : N.eqb _ _ = false |- _ => apply N.eqb_neq in H
    | H : FormFile_of _ _ = Ok _ |- _ => apply FormFile_of_Ok in H
    end.

Lemma fileExtension_of_Some (mediaType ext : string) :
  Thumbnail.fileExtension_of mediaType = Some ext ->
  (mediaType = "image/jpeg" /\ ext = "jpg")
  \/ (mediaType = "image/png" /\ ext = "png").
Proof.
  unfold Thumbnail.fileExtension_of.
  destruct (String.eqb_spec mediaType "image/jpeg") as [->|_];
    [intros H; injection H as <-; left; split; reflexivity|].
  destruct (String.eqb_spec mediaType "image/png") as [->|_];
    [intros H; injection H as <-; right; split; reflexivity|discriminate].
Qed.

(** Every exit of the handler, by what it has done to the files and to the
    metadata store when it answers. *)
Lemma thumbnail_effects :
  exists t v w l,
    Thumbnail.handlerUploadThumbnail cfg E r (entry fs objects db)
    = mkState t objects v (Some w) [] l
    /\ ((exists code msg,
           w = mkResponse code (ErrorPayload msg)
           /\ (code = StatusBadRequest \/ code = StatusUnauthorized
               \/ code = StatusInternalServerError)
           /\ msg <> "Couldn't write file"
           /\ msg <> "Couldn't update video"
           /\ (t = fs
               \/ t = Thumbnail.multipart_ReadForm E Thumbnail.maxMemory ∪ fs)
           /\ v = db)
        \/ (exists videoID token video form file mediaType ext randomBytes,
              let filename :=
                base64_RawURLEncoding (Thumbnail.calls E) randomBytes
                +:+ "." +:+ ext in
              let filePath :=
                Thumbnail.filepath_Join E (Thumbnail.assetsRoot cfg) filename in
              let updated :=
                Thumbnail.set_ThumbnailURL video
                  ("http://localhost:" +:+ Thumbnail.port cfg +:+ "/assets/"
                   +:+ filename) in
              uuid_Parse (Thumbnail.calls E) (PathValue r "videoID") = Ok videoID
              /\ auth_GetBearerToken (Thumbnail.calls E) (Header r) = Ok token
              /\ auth_ValidateJWT (Thumbnail.calls E) token
                   (Thumbnail.jwtSecret cfg) = Ok (UserID video)
              /\ BodyForm r = Ok form
              /\ form "thumbnail" = Some file
              /\ mime_ParseMediaType (Thumbnail.calls E)
                   (Header_ContentType file) = Ok mediaType
              /\ Thumbnail.fileExtension_of mediaType = Some ext
              /\ db !! videoID = Some video
              /\ rand_Read (Thumbnail.calls E) = Ok randomBytes
              /\ ((w = mkResponse StatusInternalServerError
                         (ErrorPayload "Couldn't write file")
                   /\ t = <[filePath := []]>
                           (Thumbnail.multipart_ReadForm E Thumbnail.maxMemory
                            ∪ fs)
                   /\ v = db)
                  \/ (t = <[filePath := file_data file]>
                            (Thumbnail.multipart_ReadForm E Thumbnail.maxMemory
                             ∪ fs)
                      /\ ((w = mkResponse StatusInternalServerError
                                 (ErrorPayload "Couldn't update video")
                           /\ v = db)
                          \/ (w = mkResponse StatusOK (VideoPayload updated)
                              /\ v = <[ID video := updated]> db)))))).
Proof.
  exec. repeat branch; norm; do 4 eexists; (split; [reflexivity|]).
  all: try (left; do 2 eexists; split; [reflexivity|];
            split; [first [left; reflexivity | right; left; reflexivity
                          | right; right; reflexivity]|];
            split; [discriminate|]; split; [discriminate|];
            split; [first [left; reflexivity | right; reflexivity]
                   |reflexivity]).
  all: right; subst; do 8 eexists; cbn; rewrite ?insert_insert_eq.
  all: do 9 (split; [first [reflexivity | eassumption]|]).
  all: first
    [ left; split; [reflexivity|split; reflexivity]
    | right; split; [reflexivity|];
      first [ left; split; reflexivity | right; split; reflexivity ] ].
Qed.

(** On success the handler has written the uploaded data to one file
    [random.ext] under the assets root, [ext] being jpg for image/jpeg and
    png for image/png, the caller owns the record, and the store and the
    answer hold the record with the URL of that file on localhost.  The
    other files are those from before the call and the temp files of the
    form. *)
Theorem thumbnail_success :
  let s' := Thumbnail.handlerUploadThumbnail cfg E r (entry fs objects db) in
  StatusCode <$> written s' = Some StatusOK ->
  exists videoID token video form file mediaType ext randomBytes,
    let filename :=
      base64_RawURLEncoding (Thumbnail.calls E) randomBytes +:+ "." +:+ ext in
    let updated :=
      Thumbnail.set_ThumbnailURL video
        ("http://localhost:" +:+ Thumbnail.port cfg +:+ "/assets/" +:+ filename) in
    uuid_Parse (Thumbnail.calls E) (PathValue r "videoID") = Ok videoID
    /\ auth_GetBearerToken (Thumbnail.calls E) (Header r) = Ok token
    /\ auth_ValidateJWT (Thumbnail.calls E) token (Thumbnail.jwtSecret cfg)
       = Ok (UserID video)
    /\ db !! videoID = Some video
    /\ BodyForm r = Ok form
    /\ form "thumbnail" = Some file
    /\ mime_ParseMediaType (Thumbnail.calls E) (Header_ContentType file)
       = Ok mediaType
    /\ ((mediaType = "image/jpeg" /\ ext = "jpg")
        \/ (mediaType = "image/png" /\ ext = "png"))
    /\ tmp s'
       = <[Thumbnail.filepath_Join E (Thumbnail.assetsRoot cfg) filename
           := file_data file]>
           (Thumbnail.multipart_ReadForm E Thumbnail.maxMemory ∪ fs)
    /\ videos s' = <[ID video := updated]> db
    /\ written s' = Some (mkResponse StatusOK (VideoPayload updated))
    /\ bucket s' = objects.
Proof.
  destruct thumbnail_effects as (t & v & w & l & Hs & H).
  cbv zeta. rewrite Hs.
  cbn [written bucket videos tmp fmap option_fmap option_map].
  intros Hok. injection Hok as Hok.
  destruct H as [(code & msg & -> & Hc & _)
                |(videoID & token & video & form & file & mt & ext & rb
                  & H1 & H2 & H3 & H4 & H5 & H6 & H7 & H8 & _ & H)].
  - cbn [StatusCode] in Hok. subst code.
    destruct Hc as [Hc|[Hc|Hc]]; discriminate Hc.
  - cbv zeta in H.
    destruct H as [(-> & _)|(-> & [(-> & _)|(-> & ->)])]; try discriminate Hok.
    exists videoID, token, video, form, file, mt, ext, rb. cbv zeta.
    repeat (split; [assumption|]).
    split; [apply fileExtension_of_Some; assumption|].
    repeat split.
Qed.

(** Besides the temp files that reading the form leaves on disk, the
    handler writes at most one file, at a path made from the assets root,
    and it removes none; it never touches the bucket; and the metadata
    store changes on success only. *)
Theorem thumbnail_touches_one_file :
  let s' := Thumbnail.handlerUploadThumbnail cfg E r (entry fs objects db) in
  bucket s' = objects
  /\ (tmp s' = fs
      \/ tmp s' = Thumbnail.multipart_ReadForm E Thumbnail.maxMemory ∪ fs
      \/ exists name data,
          tmp s'
          = <[Thumbnail.filepath_Join E (Thumbnail.assetsRoot cfg) name
              := data]>
              (Thumbnail.multipart_ReadForm E Thumbnail.maxMemory ∪ fs))
  /\ (StatusCode <$> written s' <> Some StatusOK -> videos s' = db).
Proof.
  destruct thumbnail_effects as (t & v & w & l & Hs & H).
  cbv zeta. rewrite Hs.
  cbn [written bucket videos tmp fmap option_fmap option_map].
  split; [reflexivity|].
  destruct H as [(code & msg & -> & Hc & _ & _ & Ht & ->)
                |(videoID & token & video & form & file & mt & ext & rb
                  & _ & _ & _ & _ & _ & _ & _ & _ & _ & H)].
  - split; [|reflexivity].
    destruct Ht as [-> | ->]; [left|right; left]; reflexivity.
  - cbv zeta in H.
    destruct H as [(-> & -> & ->)|(-> & [(-> & ->)|(-> & ->)])].
    + split; [right; right; do 2 eexists; reflexivity|reflexivity].
    + split; [right; right; do 2 eexists; reflexivity|reflexivity].
    + split; [right; right; do 2 eexists; reflexivity|].
      intros Hne. exfalso. apply Hne. reflexivity.
Qed.

(** When the record cannot be updated the answer is 500 and the file just
    written stays in the assets directory, with the uploaded data, while no
    record points to it. *)
Theorem thumbnail_update_failure_keeps_file :
  let s' := Thumbnail.handlerUploadThumbnail cfg E r (entry fs objects db) in
  written s' = Some (mkResponse StatusInternalServerError
                       (ErrorPayload "Couldn't update video")) ->
  videos s' = db
  /\ exists name form file,
      BodyForm r = Ok form /\ form "thumbnail" = Some file
      /\ tmp s' !! Thumbnail.filepath_Join E (Thumbnail.assetsRoot cfg) name
         = Some (file_data file).
Proof.
  destruct thumbnail_effects as (t & v & w & l & Hs & H).
  cbv zeta. rewrite Hs. cbn [written videos tmp].
  intros Hw. injection Hw as ->.
  destruct H as [(code & msg & Hw & _ & _ & Hm & _)
                |(videoID & token & video & form & file & mt & ext & rb
                  & _ & _ & _ & Hf & Hfile & _ & _ & _ & _ & H)].
  - injection Hw as _ <-. contradiction.
  - cbv zeta in H.
    destruct H as [(Hw & _)|(-> & [(_ & ->)|(Hw & _)])]; try discriminate Hw.
    split; [reflexivity|]. do 3 eexists.
    split; [exact Hf|]. split; [exact Hfile|]. apply lookup_insert_eq.
Qed.

(** The file type is checked before the record is fetched: an upload that
    is neither JPEG nor PNG is answered 400 whoever the caller is and
    whatever the store holds; no record is updated and no asset file is
    created, so that the files are those from before the call and the temp
    files of the form. *)
Theorem thumbnail_type_checked_before_owner videoID token userID form file mediaType :
  uuid_Parse (Thumbnail.calls E) (PathValue r "videoID") = Ok videoID ->
  auth_GetBearerToken (Thumbnail.calls E) (Header r) = Ok token ->
  auth_ValidateJWT (Thumbnail.calls E) token (Thumbnail.jwtSecret cfg)
  = Ok userID ->
  BodyForm r = Ok form ->
  form "thumbnail" = Some file ->
  mime_ParseMediaType (Thumbnail.calls E) (Header_ContentType file)
  = Ok mediaType ->
  mediaType <> "image/jpeg" -> mediaType <> "image/png" ->
  let s' := Thumbnail.handlerUploadThumbnail cfg E r (entry fs objects db) in
  written s' = Some (mkResponse StatusBadRequest
                       (ErrorPayload
                          "Invalid file type. Only JPEG and PNG images are allowed"))
  /\ tmp s' = Thumbnail.multipart_ReadForm E Thumbnail.maxMemory ∪ fs
  /\ videos s' = db.
Proof.
  intros H1 H2 H3 H4 H5 H6 Hj Hp. exec.
  rewrite H1; cbn. rewrite H2; cbn. rewrite H3; cbn. rewrite H4; cbn.
  unfold FormFile_of. rewrite H5; cbn. rewrite H6; cbn.
  unfold Thumbnail.fileExtension_of.
  apply String.eqb_neq in Hj, Hp. rewrite Hj, Hp; cbn.
  repeat split.
Qed.

(** A caller who is authenticated and does not own the record is answered
    401 once the form and its type have passed; no record is updated and
    no asset file is created, so that the files are those from before the
    call and the temp files of the form. *)
Theorem thumbnail_nonowner_rejected
    videoID token userID form file mediaType ext video :
  uuid_Parse (Thumbnail.calls E) (PathValue r "videoID") = Ok videoID ->
  auth_GetBearerToken (Thumbnail.calls E) (Header r) = Ok token ->
  auth_ValidateJWT (Thumbnail.calls E) token (Thumbnail.jwtSecret cfg)
  = Ok userID ->
  BodyForm r = Ok form ->
  form "thumbnail" = Some file ->
  mime_ParseMediaType (Thumbnail.calls E) (Header_ContentType file)
  = Ok mediaType ->
  Thumbnail.fileExtension_of mediaType = Some ext ->
  db !! videoID = Some video ->
  UserID video <> userID ->
  let s' := Thumbnail.handlerUploadThumbnail cfg E r (entry fs objects db) in
  written s' = Some (mkResponse StatusUnauthorized
                       (ErrorPayload "User not authorized to update this video"))
  /\ tmp s' = Thumbnail.multipart_ReadForm E Thumbnail.maxMemory ∪ fs
  /\ videos s' = db.
Proof.
  intros H1 H2 H3 H4 H5 H6 H7 H8 H9. exec.
  rewrite H1; cbn. rewrite H2; cbn. rewrite H3; cbn. rewrite H4; cbn.
  unfold FormFile_of. rewrite H5; cbn. rewrite H6; cbn. rewrite H7; cbn.
  rewrite H8; cbn. apply N.eqb_neq in H9. rewrite H9; cbn.
  repeat split.
Qed.

End ThumbnailFacts.

(** ** The earlier upload handler *)

Section PipelineV1Facts.
Import Pipeline.

Variable cfg : apiConfig.
Variable E : Env.
Variable r : Request.
Variable fs : gmap string bytes.
Variable objects : list PutObjectInput.
Variable db : gmap UUID Video.

#[local] Arguments getVideoAspectRatio : simpl never.
#[local] Arguments prefix_of : simpl never.
#[local] Arguments String.append : simpl never.
#[local] Arguments String.eqb : simpl never.
#[local] Arguments N.eqb : simpl never.
#[local] Arguments Z.ltb : simpl never.
#[local] Arguments Z.shiftl : simpl never.

Ltac exec :=
  unfold PipelineV1.handlerUploadVideo, PipelineV1.handlerUploadVideo_body,
    PipelineV1.ReadAll, GetVideo, CreateTemp, Copy, PutObject, UpdateVideo,
    attempt, check, respondWithError, respondWithJSON, step, defer, modify,
    get, bind, ret, return_, entry, run_deferred; cbn.

Ltac atomic x :=
  lazymatch x with
  | context [match _ with _ => _ end] => fail
  | _ => idtac
  end.

Ltac branch :=
  match goal with
  | |- context [match ?x with _ => _ end] => atomic x; destruct x eqn:?
  end; cbn; rewrite ?insert_insert_eq, ?lookup_insert_eq; cbn.

Ltac norm :=
  repeat match goal with
    | H : negb _ = false |- _ => apply negb_false_iff in H
    | H : negb _ = true |- _ => apply negb_true_iff in H
    | H : N.eqb _ _ = true |- _ => apply N.eqb_eq in H
    | H : N.eqb _ _ = false |- _ => apply N.eqb_neq in H
    | H : String.eqb _ _ = true |- _ => apply String.eqb_eq in H
    | H : String.eqb _ _ = false |- _ => apply String.eqb_neq in H
    | H : FormFile_of _ _ = Ok _ |- _ => apply FormFile_of_Ok in H
    | H : ParseMultipartForm _ _ = Ok _ |- _ => apply ParseMultipartForm_Ok in H
    end.

(** Every exit of the earlier handler, by what it leaves in the temp
    directory, the bucket and the metadata store. *)
Lemma earlier_upload_effects :
  exists t b v w l,
    PipelineV1.handlerUploadVideo cfg E r (entry fs objects db)
    = mkState t b v (Some w) [] l
    /\ (t = fs
        \/ exists tempFile data,
            os_CreateTemp E = Ok tempFile
            /\ t = delete tempFile (<[tempFile := data]> fs))
    /\ ((exists code msg,
           w = mkResponse code (ErrorPayload msg)
           /\ msg <> "Couldn't update video"
           /\ b = objects /\ v = db)
        \/ (exists videoID video form file tempFile randomBytes,
              let aspectRatio :=
                fst (getVideoAspectRatio E (<[tempFile := file_data file]> fs)
                       tempFile) in
              let key := prefix_of aspectRatio +:+ "/"
                         +:+ base64_RawURLEncoding E randomBytes +:+ ".mp4" in
              let updated :=
                set_VideoURL video
                  ("https://" +:+ s3Bucket cfg +:+ ".s3." +:+ s3Region cfg
                   +:+ ".amazonaws.com/" +:+ key) in
              uuid_Parse E (PathValue r "videoID") = Ok videoID
              /\ db !! videoID = Some video
              /\ BodyForm r = Ok form
              /\ form "video" = Some file
              /\ os_CreateTemp E = Ok tempFile
              /\ rand_Read E = Ok randomBytes
              /\ b = mkPutObjectInput (s3Bucket cfg) key (file_data file)
                       "video/mp4" :: objects
              /\ ((w = mkResponse StatusInternalServerError
                         (ErrorPayload "Couldn't update video")
                   /\ v = db)
                  \/ (w = mkResponse StatusOK (VideoPayload updated)
                      /\ v = <[ID video := updated]> db)))).
Proof.
  exec. repeat branch; norm; do 5 eexists; (split; [reflexivity|]).
  all: cbn; rewrite ?insert_insert_eq.
  all: split;
    [first [left; reflexivity
           |right; do 2 eexists; split; [reflexivity|reflexivity]]|].
  all: try (left; do 2 eexists; split; [reflexivity|];
            split; [discriminate|]; split; reflexivity).
  all: right; subst; do 6 eexists; cbn zeta.
  all: do 6 (split; [first [reflexivity | eassumption]|]).
  all: split; [reflexivity|].
  all: first [left; split; reflexivity | right; split; reflexivity].
Qed.

(** The earlier handler leaves the temp directory as it found it, on every
    exit: its one staged file is removed. *)
Theorem earlier_upload_cleans_up :
  (forall tempFile, os_CreateTemp E = Ok tempFile -> fs !! tempFile = None) ->
  tmp (PipelineV1.handlerUploadVideo cfg E r (entry fs objects db)) = fs.
Proof.
  intros Hfresh.
  destruct earlier_upload_effects as (t & b & v & w & l & Hs & Ht & _).
  rewrite Hs. cbn [tmp].
  destruct Ht as [->|(tempFile & data & HT & ->)]; [reflexivity|].
  rewrite delete_insert_eq. apply delete_id. apply Hfresh, HT.
Qed.

(** On success the earlier handler has put the uploaded data itself in the
    bucket, and the store and the answer hold the same record, with the
    public URL of the object, [https://bucket.s3.region.amazonaws.com/key]. *)
Theorem earlier_upload_success :
  let s' := PipelineV1.handlerUploadVideo cfg E r (entry fs objects db) in
  StatusCode <$> written s' = Some StatusOK ->
  exists videoID video form file key,
    let updated :=
      set_VideoURL video
        ("https://" +:+ s3Bucket cfg +:+ ".s3." +:+ s3Region cfg
         +:+ ".amazonaws.com/" +:+ key) in
    uuid_Parse E (PathValue r "videoID") = Ok videoID
    /\ db !! videoID = Some video
    /\ BodyForm r = Ok form
    /\ form "video" = Some file
    /\ bucket s'
       = mkPutObjectInput (s3Bucket cfg) key (file_data file) "video/mp4"
         :: objects
    /\ videos s' = <[ID video := updated]> db
    /\ written s' = Some (mkResponse StatusOK (VideoPayload updated)).
Proof.
  destruct earlier_upload_effects as (t & b & v & w & l & Hs & _ & H).
  cbv zeta. rewrite Hs.
  cbn [written bucket videos fmap option_fmap option_map].
  intros Hok. injection Hok as Hok.
  destruct H as [(code & msg & -> & _)
                |(videoID & video & form & file & tempFile & rb
                  & H1 & H2 & H3 & H4 & _ & _ & -> & H)].
  - exfalso. cbn [StatusCode] in Hok. subst code.
    revert Hs. exec. repeat branch; intros Hs; inversion Hs.
  - cbv zeta in H. destruct H as [(-> & _)|(-> & ->)]; [discriminate Hok|].
    exists videoID, video, form, file. eexists. cbv zeta.
    repeat (split; [first [assumption | reflexivity]|]). reflexivity.
Qed.

End PipelineV1Facts.

(** ** The properties on the sample executions *)

Section OnSamples.
Import Pipeline Samples.

Lemma nonowner_rejected_unauthorized_witness :
  let s' := handlerUploadVideo cfg fine (request "bob" "video/mp4" 100)
              (entry ∅ [] db) in
  written s' = Some (mkResponse StatusUnauthorized
                       (ErrorPayload "User not authorized to update this video"))
  /\ bucket s' = []
  /\ videos s' = db
  /\ tmp s' = ∅
  /\ ~ In StepPutObject (log s')
  /\ ~ In StepUpdateVideo (log s').
Proof.
  apply (nonowner_rejected_unauthorized cfg fine
           (request "bob" "video/mp4" 100) ∅ [] db clip "bob" bob record);
    [reflexivity | reflexivity | reflexivity | reflexivity | discriminate].
Defined.

(** C4 as stated fails: bob is authenticated and does not own the record,
    and the answer is not 403 Forbidden. *)
Lemma nonowner_not_forbidden :
  let s' := handlerUploadVideo cfg fine (request "bob" "video/mp4" 100)
              (entry ∅ [] db) in
  auth_ValidateJWT fine "bob" (jwtSecret cfg) = Ok bob
  /\ db !! clip = Some record
  /\ UserID record <> bob
  /\ StatusCode <$> written s' <> Some StatusForbidden.
Proof. repeat split; try reflexivity; vm_compute; discriminate. Qed.

Lemma oversize_rejected_bad_request_witness :
  let s' := handlerUploadVideo cfg fine
              (request "alice" "video/mp4" (Z.shiftl 1 30 + 1))
              (entry ∅ [] db) in
  existsb is_staging (log s') = false /\ tmp s' = ∅.
Proof.
  pose proof (oversize_rejected_bad_request cfg fine
                (request "alice" "video/mp4" (Z.shiftl 1 30 + 1)) ∅ [] db)
    as H.
  cbv zeta in H. destruct H as (_ & H1 & H2 & _); [vm_compute; reflexivity|].
  split; assumption.
Defined.

(** C7 as stated fails, in two ways.  The owner's request whose form is one
    byte over 1 GiB is answered with 400 Bad Request, not with 413.  And the
    owner's request whose body is longer than 1 GiB while its form ends
    within the bound is not rejected at all: the bytes after the form are
    never read, the upload is staged and the answer is 200. *)
Lemma oversize_not_payload_too_large :
  let r := request "alice" "video/mp4" (Z.shiftl 1 30 + 1) in
  let s' := handlerUploadVideo cfg fine r (entry ∅ [] db) in
  let r2 := padded "alice" "video/mp4" 100 (Z.shiftl 1 30) in
  let s2 := handlerUploadVideo cfg fine r2 (entry ∅ [] db) in
  (Z.shiftl 1 30 < BodyLength r
   /\ written s' = Some (mkResponse StatusBadRequest
                           (ErrorPayload "Couldn't parse form"))
   /\ StatusCode <$> written s' <> Some StatusRequestEntityTooLarge)
  /\ (Z.shiftl 1 30 < BodyLength r2
      /\ StatusCode <$> written s2 = Some StatusOK
      /\ existsb is_staging (log s2) = true
      /\ exists object, bucket s2 = [object]).
Proof.
  cbv zeta. split.
  - repeat split; try reflexivity; vm_compute; discriminate.
  - split; [reflexivity|]. split; [reflexivity|]. split; [reflexivity|].
    eexists. reflexivity.
Qed.

Lemma non_mp4_rejected_bad_request_witness :
  let s' := handlerUploadVideo cfg fine (request "alice" "image/png" 100)
              (entry ∅ [] db) in
  existsb is_staging (log s') = false /\ tmp s' = ∅.
Proof.
  pose proof (non_mp4_rejected_bad_request cfg fine
                (request "alice" "image/png" 100) ∅ [] db) as H.
  cbv zeta in H. destruct H as (_ & H1 & H2 & _).
  - intros form file Hf Hv. injection Hf as <-.
    injection Hv as <-. vm_compute. discriminate.
  - split; assumption.
Defined.

(** C6 as stated fails: the owner's upload declared as image/png is
    answered with 400 Bad Request, not with 415. *)
Lemma non_mp4_not_unsupported_media_type :
  let s' := handlerUploadVideo cfg fine (request "alice" "image/png" 100)
              (entry ∅ [] db) in
  written s' = Some (mkResponse StatusBadRequest
                       (ErrorPayload "Invalid file type. Only MP4 videos are allowed"))
  /\ StatusCode <$> written s' <> Some StatusUnsupportedMediaType.
Proof. split; [reflexivity | vm_compute; discriminate]. Qed.

Lemma upload_sends_remuxed_file_witness :
  exists object,
    bucket (handlerUploadVideo cfg fine (request "alice" "video/mp4" 100)
              (entry ∅ [] db)) = [object]
    /\ Body object = faststart.
Proof.
  destruct (upload_sends_remuxed_file cfg fine
              (request "alice" "video/mp4" 100) ∅ [] db)
    as (form' & file & tempFile & randomBytes & aspectRatio & object & H);
    [reflexivity|].
  destruct H as (Hform & Hfile & _ & _ & _ & _ & Hb & _ & _ & _ & _ & Hbody).
  exists object. split; [exact Hb|].
  injection Hform as <-. injection Hfile as <-. exact Hbody.
Defined.

(** C5 as stated fails in its last part: the owner's upload declared as
    "video/mp4; codecs=avc1" succeeds, and the content type attached to the
    object is the media type video/mp4, not the declared content type. *)
Lemma declared_type_not_attached :
  let r := request "alice" "video/mp4; codecs=avc1" 100 in
  let s' := handlerUploadVideo cfg parsing r (entry ∅ [] db) in
  exists file object,
    form "video/mp4; codecs=avc1" "video" = Some file
    /\ StatusCode <$> written s' = Some StatusOK
    /\ bucket s' = [object]
    /\ Body object = faststart
    /\ ContentType object = "video/mp4"
    /\ ContentType object <> Header_ContentType file.
Proof.
  cbv zeta. do 2 eexists.
  split; [reflexivity|]. split; [reflexivity|]. split; [reflexivity|].
  split; [reflexivity|]. split; [reflexivity|]. vm_compute. discriminate.
Qed.

(** C3 fails on the code.  When ffmpeg exits with a nonzero status after it
    has written part of its output, the handler answers 500 and returns with
    the output file still in the temp directory: the call that removes it is
    deferred only after the remux has succeeded. *)
Theorem remux_failure_leaves_output :
  let s' := handlerUploadVideo cfg broken_remux
              (request "alice" "video/mp4" 100) (entry ∅ [] db) in
  written s' = Some (mkResponse StatusInternalServerError
                       (ErrorPayload "Couldn't process video for fast start"))
  /\ tmp s' !! location = None
  /\ tmp s' !! (location +:+ ".processing") = Some partial
  /\ ~ In (StepRemove (location +:+ ".processing")) (log s').
Proof.
  repeat split; try reflexivity.
  vm_compute. intuition discriminate.
Qed.

(** The execution of C10: on [broken_presign] the presigner fails for the
    bucket and the key of the object, neither of which holds a comma, after
    the object has been put and the record updated. *)
Lemma internal_error_after_side_effects_witness :
  let s' := handlerUploadVideo cfg broken_presign
              (request "alice" "video/mp4" 100) (entry ∅ [] db) in
  exists (object : PutObjectInput) (video : Video),
    written s' = Some (mkResponse StatusInternalServerError
                         (ErrorPayload "Couldn't generate presigned URL"))
    /\ bucket s' = [object]
    /\ Body object = faststart
    /\ videos s' !! clip = Some video
    /\ VideoURL video = Some (Locator.encode (Bucket object) (Key object))
    /\ db !! clip <> Some video
    /\ s3_PresignGetObject broken_presign (Bucket object) (Key object)
         time_Hour = Err "failed to retrieve credentials"
    /\ Locator.Count (Bucket object) = O
    /\ Locator.Count (Key object) = O.
Proof.
  pose proof (internal_error_after_side_effects cfg broken_presign
                (request "alice" "video/mp4" 100) ∅ [] db
                clip "alice" record (form "video/mp4")
                (mkFormFile "video/mp4" mp4) location "16:9" faststart
                [Byte.xff] "failed to retrieve credentials") as H.
  cbv zeta in H.
  destruct H as (Hw & Hb & _ & Hv & Hu); try reflexivity.
  do 2 eexists. cbv zeta.
  split; [exact Hw|]. split; [exact Hb|]. split; [reflexivity|].
  split; [exact Hv|]. split; [exact Hu|].
  split; [vm_compute; discriminate|].
  split; [reflexivity|]. split; reflexivity.
Defined.

End OnSamples.

(** ** Further properties on the sample executions *)

Section MoreOnSamples.
Import Pipeline Samples.

Lemma upload_failures_without_effects_witness :
  let s' := handlerUploadVideo cfg fine (request "bob" "video/mp4" 100)
              (entry ∅ [] db) in
  bucket s' = [] /\ videos s' = db.
Proof.
  apply (upload_failures_without_effects cfg fine
           (request "bob" "video/mp4" 100) ∅ [] db StatusUnauthorized
           "User not authorized to update this video");
    [reflexivity | discriminate | discriminate].
Defined.

Lemma upload_success_record_witness :
  let s' := handlerUploadVideo cfg fine (request "alice" "video/mp4" 100)
              (entry ∅ [] db) in
  exists videoID video object url,
    uuid_Parse fine "7" = Ok videoID
    /\ db !! videoID = Some video
    /\ bucket s' = [object]
    /\ Bucket object = s3Bucket cfg
    /\ videos s'
       = <[ID video := set_VideoURL video
                         (Locator.encode (s3Bucket cfg) (Key object))]> db
    /\ s3_PresignGetObject fine (s3Bucket cfg) (Key object) time_Hour = Ok url
    /\ written s' = Some (mkResponse StatusOK
                            (VideoPayload (set_VideoURL video url))).
Proof.
  apply (upload_success_record cfg fine (request "alice" "video/mp4" 100)
           ∅ [] db).
  reflexivity.
Defined.

Lemma comma_bucket_never_succeeds_witness :
  Locator.Count "tubely,private" <> O
  /\ StatusCode
       <$> written (handlerUploadVideo
                      (mkConfig "secret" "tubely,private" "us-east-2") fine
                      (request "alice" "video/mp4" 100) (entry ∅ [] db))
     <> Some StatusOK.
Proof.
  split; [discriminate|].
  apply (comma_bucket_never_succeeds
           (mkConfig "secret" "tubely,private" "us-east-2") fine
           (request "alice" "video/mp4" 100) ∅ [] db).
  discriminate.
Defined.

Lemma unauthenticated_rejected_witness :
  let s' := handlerUploadVideo cfg fine (request "mallory" "video/mp4" 100)
              (entry ∅ [] db) in
  StatusCode <$> written s' = Some StatusUnauthorized
  /\ ~ In StepGetVideo (log s')
  /\ tmp s' = ∅ /\ bucket s' = [] /\ videos s' = db.
Proof.
  apply (unauthenticated_rejected cfg fine
           (request "mallory" "video/mp4" 100) ∅ [] db).
  intros token userID H. discriminate H.
Defined.

Lemma unknown_video_internal_error_witness :
  let s' := handlerUploadVideo cfg fine (request "alice" "video/mp4" 100)
              (entry ∅ [] ∅) in
  written s' = Some (mkResponse StatusInternalServerError
                       (ErrorPayload "Couldn't get video"))
  /\ tmp s' = ∅ /\ bucket s' = [] /\ videos s' = ∅.
Proof.
  apply (unknown_video_internal_error cfg fine
           (request "alice" "video/mp4" 100) ∅ [] ∅ clip "alice" alice);
    reflexivity.
Defined.

Lemma staging_file_removed_witness :
  tmp (handlerUploadVideo cfg fine (request "alice" "video/mp4" 100)
         (entry ∅ [] db)) !! location = None.
Proof.
  apply (staging_file_removed cfg fine (request "alice" "video/mp4" 100)
           ∅ [] db location); reflexivity.
Defined.

Lemma temp_dir_restored_witness :
  tmp (handlerUploadVideo cfg fine (request "alice" "video/mp4" 100)
         (entry ∅ [] db)) = ∅.
Proof.
  apply (temp_dir_restored cfg fine (request "alice" "video/mp4" 100)
           ∅ [] db).
  - intros tempFile H. split; apply lookup_empty.
  - intros input H. exfalso. apply H. reflexivity.
Defined.

Lemma zero_dimension_rejected_witness :
  getVideoAspectRatio (probing 0 720) staged location
  = ("", Some "invalid dimensions: width=0, height=720").
Proof.
  apply (zero_dimension_rejected (probing 0 720) staged location "{}"
           (mkFFProbeOutput [mkStream 0 720]) (mkStream 0 720) []);
    [reflexivity | reflexivity | reflexivity | left; reflexivity].
Defined.

Lemma true_ratios_classified_witness :
  prefix_of (classify 1920 1080) = "landscape"
  /\ prefix_of (classify 1080 1920) = "portrait"
  /\ prefix_of (classify 480 360) = "other"
  /\ prefix_of (classify 120 120) = "other".
Proof.
  apply (true_ratios_classified 120); reflexivity.
Defined.

Lemma negative_ratio_other_witness : classify (-1920) 1080 = "other".
Proof.
  apply (negative_ratio_other (-1920) 1080); reflexivity.
Defined.

Lemma classify_scale_invariant_witness :
  classify (120 * 16) (120 * 9) = classify 16 9.
Proof.
  apply (classify_scale_invariant 16 9 120);
    [discriminate | discriminate | discriminate | reflexivity | reflexivity].
Defined.

Lemma encode_injective_witness :
  Locator.Count "tubely-bucket" = O
  /\ "tubely-bucket" = "tubely-bucket"
  /\ "landscape/_w.mp4" = "landscape/_w.mp4".
Proof.
  split; [reflexivity|].
  apply (encode_injective "tubely-bucket" "tubely-bucket"
           "landscape/_w.mp4" "landscape/_w.mp4"); reflexivity.
Defined.

Lemma thumbnail_success_witness :
  let s' := Thumbnail.handlerUploadThumbnail ThumbnailSamples.cfg
              ThumbnailSamples.large
              (ThumbnailSamples.request "alice" "image/png")
              (entry ∅ [] db) in
  tmp s' !! "assets/_w.png" = Some ThumbnailSamples.png
  /\ tmp s' !! "/tmp/multipart-4217" = Some ThumbnailSamples.png
  /\ videos s' !! clip
     = Some (Thumbnail.set_ThumbnailURL record
               "http://localhost:8091/assets/_w.png").
Proof.
  destruct (thumbnail_success ThumbnailSamples.cfg ThumbnailSamples.large
              (ThumbnailSamples.request "alice" "image/png") ∅ [] db)
    as (videoID & token & video & form & file & mediaType & ext & rb & _);
    [reflexivity|].
  split; [reflexivity|]. split; reflexivity.
Defined.

Lemma thumbnail_update_failure_keeps_file_witness :
  let s' := Thumbnail.handlerUploadThumbnail ThumbnailSamples.cfg
              (ThumbnailSamples.world ∅ (Some "database is locked"))
              (ThumbnailSamples.request "alice" "image/png")
              (entry ∅ [] db) in
  videos s' = db
  /\ exists name form file,
      Ok (ThumbnailSamples.form "image/png") = Ok form
      /\ form "thumbnail" = Some file
      /\ tmp s' !! ("assets" +:+ "/" +:+ name) = Some (file_data file).
Proof.
  apply (thumbnail_update_failure_keeps_file ThumbnailSamples.cfg
           (ThumbnailSamples.world ∅ (Some "database is locked"))
           (ThumbnailSamples.request "alice" "image/png") ∅ [] db).
  reflexivity.
Defined.

Lemma thumbnail_type_checked_before_owner_witness :
  let s' := Thumbnail.handlerUploadThumbnail ThumbnailSamples.cfg
              ThumbnailSamples.large
              (ThumbnailSamples.request "bob" "video/mp4")
              (entry ∅ [] db) in
  written s' = Some (mkResponse StatusBadRequest
                       (ErrorPayload
                          "Invalid file type. Only JPEG and PNG images are allowed"))
  /\ tmp s' = ThumbnailSamples.spilled ∪ ∅ /\ videos s' = db.
Proof.
  apply (thumbnail_type_checked_before_owner ThumbnailSamples.cfg
           ThumbnailSamples.large (ThumbnailSamples.request "bob" "video/mp4")
           ∅ [] db clip "bob" bob (ThumbnailSamples.form "video/mp4")
           (mkFormFile "video/mp4" ThumbnailSamples.png) "video/mp4");
    [reflexivity | reflexivity | reflexivity | reflexivity | reflexivity
    | reflexivity | discriminate | discriminate].
Defined.

Lemma thumbnail_nonowner_rejected_witness :
  let s' := Thumbnail.handlerUploadThumbnail ThumbnailSamples.cfg
              ThumbnailSamples.large
              (ThumbnailSamples.request "bob" "image/png")
              (entry ∅ [] db) in
  written s' = Some (mkResponse StatusUnauthorized
                       (ErrorPayload "User not authorized to update this video"))
  /\ tmp s' = ThumbnailSamples.spilled ∪ ∅ /\ videos s' = db.
Proof.
  apply (thumbnail_nonowner_rejected ThumbnailSamples.cfg
           ThumbnailSamples.large (ThumbnailSamples.request "bob" "image/png")
           ∅ [] db clip "bob" bob (ThumbnailSamples.form "image/png")
           (mkFormFile "image/png" ThumbnailSamples.png) "image/png" "png"
           record);
    [reflexivity | reflexivity | reflexivity | reflexivity | reflexivity
    | reflexivity | reflexivity | reflexivity | discriminate].
Defined.

Lemma earlier_upload_cleans_up_witness :
  tmp (PipelineV1.handlerUploadVideo cfg fine
         (request "alice" "video/mp4" 100) (entry ∅ [] db)) = ∅.
Proof.
  apply (earlier_upload_cleans_up cfg fine (request "alice" "video/mp4" 100)
           ∅ [] db).
  intros tempFile H. apply lookup_empty.
Defined.

Lemma earlier_upload_success_witness :
  let s' := PipelineV1.handlerUploadVideo cfg fine
              (request "alice" "video/mp4" 100) (entry ∅ [] db) in
  exists videoID video form file key,
    let updated :=
      set_VideoURL video
        ("https://" +:+ s3Bucket cfg +:+ ".s3." +:+ s3Region cfg
         +:+ ".amazonaws.com/" +:+ key) in
    uuid_Parse fine "7" = Ok videoID
    /\ db !! videoID = Some video
    /\ Ok (Samples.form "video/mp4") = Ok form
    /\ form "video" = Some file
    /\ bucket s'
       = [mkPutObjectInput (s3Bucket cfg) key (file_data file) "video/mp4"]
    /\ videos s' = <[ID video := updated]> db
    /\ written s' = Some (mkResponse StatusOK (VideoPayload updated)).
Proof.
  apply (earlier_upload_success cfg fine (request "alice" "video/mp4" 100)
           ∅ [] db).
  reflexivity.
Defined.

End MoreOnSamples.
